(** * HuskyAI-Reverse: the WebSocket multiplexing and correlation core

    A shallow embedding of [websocket_manager.py], [manager.py],
    [request_manager.py], [stream_manager.py] and
    [authentication_manager.py], and the properties of the specification
    checked against it.

    The Python objects live in one explicit [state]; every method is a
    function in a state-and-exception monad [M].  What the event loop and
    the network decide (whether a handshake succeeds, which frames the
    listener task receives while a coroutine is suspended, whether a timeout
    fires first) is an explicit argument of the function that awaits. *)

From Stdlib Require Import ZArith.
From stdpp Require Import gmap strings list pretty.

Local Open Scope Z_scope.
Local Set Warnings "-register-all".

(** ** JSON values and Python's view of them *)

(** What [json.loads] returns.  Numbers are the integers of the wire protocol
    ([code], [tokens_burned]); an object is its list of fields in order. *)
Inductive json : Type :=
| JNull
| JBool (b : bool)
| JNum (n : Z)
| JStr (s : string)
| JArr (elems : list json)
| JObj (fields : list (string * json)).

Definition dict : Type := list (string * json).

(** [bool(v)] *)
Definition truthy (v : json) : bool :=
  match v with
  | JNull => false
  | JBool b => b
  | JNum n => negb (n =? 0)
  | JStr s => negb (String.eqb s "")
  | JArr l => match l with [] => false | _ => true end
  | JObj f => match f with [] => false | _ => true end
  end.

(** [v == n] for an int literal [n]; [True == 1] and [False == 0] in Python. *)
Definition py_eq_int (v : json) (n : Z) : bool :=
  match v with
  | JNum m => m =? n
  | JBool b => (if b then 1 else 0) =? n
  | _ => false
  end.

Fixpoint dict_lookup (k : string) (d : dict) : option json :=
  match d with
  | [] => None
  | (k', v) :: d' => if String.eqb k k' then Some v else dict_lookup k d'
  end.

(** [d[k] = v] *)
Fixpoint dict_set (k : string) (v : json) (d : dict) : dict :=
  match d with
  | [] => [(k, v)]
  | (k', v') :: d' =>
      if String.eqb k k' then (k', v) :: d' else (k', v') :: dict_set k v d'
  end.

(** [d.get(k, dflt)] on a dict *)
Definition dict_get (d : dict) (k : string) (dflt : json) : json :=
  default dflt (dict_lookup k d).

(** [k in d] on a dict *)
Definition dict_mem (k : string) (d : dict) : bool :=
  bool_decide (is_Some (dict_lookup k d)).

(** An element of an [asyncio.Queue] of this program: the router enqueues
    decoded dicts, [stop()] enqueues [None]. *)
Definition item : Type := option dict.

(** [response and response.get("code") == 200] *)
Definition is_success (response : item) : bool :=
  match response with
  | None => false
  | Some d => truthy (JObj d) && py_eq_int (dict_get d "code" JNull) 200
  end.

(** ** The standard-library codec

    [json.loads], [json.dumps] and [bytes.decode('utf-8')] are Python's, not
    this repository's: the development is parametric in them. [None] stands
    for [JSONDecodeError] and [UnicodeDecodeError]. *)
Class Codec : Type := {
  json_loads : string → option json;
  json_dumps : json → string;
  decode_utf8 : string → option string
}.

(** A WebSocket message as [recv()] returns it: [str] for a text frame,
    [bytes] for a binary one. *)
Inductive message : Type :=
| Text (s : string)
| Binary (b : string).

(** ** Exceptions *)

Inductive exn : Type :=
| HTTPException (status_code : Z) (detail : json)
| HTTPExceptionStr (status_code : Z) (cause : exn)   (* detail=str(e) *)
| NameError (name : string)
| KeyError (key : string)
| AttributeError (attr : string)
| TypeError
| UnicodeDecodeError
| QueueFull
| ConnectionError      (* what connection.send raises on a dead socket *)
| RuntimeError.

Inductive result (A : Type) : Type :=
| Ok (a : A)
| Raise (e : exn).
Arguments Ok {A} a.
Arguments Raise {A} e.

(** ** Observable effects *)

Inductive level : Type := Info | Warn | Error | Success.

(** The trace lists, oldest first, what the process did to the outside and
    to the registry.  A log line keeps the constant part of its f-string. *)
Inductive event : Type :=
| Log (lvl : level) (msg : string)
| Connect (ok : bool)                 (* websockets.connect(self.url) *)
| Sent (msg : string) (request_id : string)   (* connection.send(msg) returned *)
| Closed                              (* connection.close() *)
| Sleep (seconds : Z)                 (* asyncio.sleep(seconds) *)
| Registered (request_id : string)    (* self.listeners[request_id] = queue *)
| Unregistered (request_id : string). (* del self.listeners[request_id] *)

Global Instance level_eq_dec : EqDecision level.
Proof. solve_decision. Defined.
Global Instance event_eq_dec : EqDecision event.
Proof. solve_decision. Defined.

(** ** Program state *)

(** An [asyncio.Queue]: [Queue()] has [maxsize = 0]. *)
Record Queue : Type := mkQueue { maxsize : Z; items : list item }.

(** A reference to a queue object: its index in the heap.  Two dicts that
    hold the same reference hold the same queue. *)
Definition qref : Type := nat.

Inductive socket : Type := Socket.

Record state : Type := mkState {
  (* WebSocketManager *)
  connection : option socket;
  listeners : gmap string qref;
  stream_queues : gmap string qref;
  running : bool;
  current_retry : Z;
  (* BaseManager (the RequestManager or StreamManager at hand) *)
  queues : gmap string qref;
  (* AuthenticationManager *)
  authenticated_addresses : list string;
  (* FastAPI BackgroundTasks: request ids whose cleanup was added *)
  scheduled : list string;
  (* the queue objects, and what has happened so far *)
  heap : list Queue;
  trace : list event
}.

(** [WS_CONFIG] *)
Definition reconnect_delay : Z := 3.
Definition max_retries : Z := 5.

Definition set_connection (c : option socket) (σ : state) : state :=
  mkState c (listeners σ) (stream_queues σ) (running σ) (current_retry σ)
    (queues σ) (authenticated_addresses σ) (scheduled σ) (heap σ) (trace σ).
Definition set_listeners (l : gmap string qref) (σ : state) : state :=
  mkState (connection σ) l (stream_queues σ) (running σ) (current_retry σ)
    (queues σ) (authenticated_addresses σ) (scheduled σ) (heap σ) (trace σ).
Definition set_running (b : bool) (σ : state) : state :=
  mkState (connection σ) (listeners σ) (stream_queues σ) b (current_retry σ)
    (queues σ) (authenticated_addresses σ) (scheduled σ) (heap σ) (trace σ).
Definition set_current_retry (n : Z) (σ : state) : state :=
  mkState (connection σ) (listeners σ) (stream_queues σ) (running σ) n
    (queues σ) (authenticated_addresses σ) (scheduled σ) (heap σ) (trace σ).
Definition set_queues (q : gmap string qref) (σ : state) : state :=
  mkState (connection σ) (listeners σ) (stream_queues σ) (running σ)
    (current_retry σ) q (authenticated_addresses σ) (scheduled σ) (heap σ)
    (trace σ).
Definition set_authenticated_addresses (a : list string) (σ : state) : state :=
  mkState (connection σ) (listeners σ) (stream_queues σ) (running σ)
    (current_retry σ) (queues σ) a (scheduled σ) (heap σ) (trace σ).
Definition set_scheduled (s : list string) (σ : state) : state :=
  mkState (connection σ) (listeners σ) (stream_queues σ) (running σ)
    (current_retry σ) (queues σ) (authenticated_addresses σ) s (heap σ)
    (trace σ).
Definition set_heap (h : list Queue) (σ : state) : state :=
  mkState (connection σ) (listeners σ) (stream_queues σ) (running σ)
    (current_retry σ) (queues σ) (authenticated_addresses σ) (scheduled σ) h
    (trace σ).
Definition emit (e : event) (σ : state) : state :=
  mkState (connection σ) (listeners σ) (stream_queues σ) (running σ)
    (current_retry σ) (queues σ) (authenticated_addresses σ) (scheduled σ)
    (heap σ) (trace σ ++ [e]).

(** The state after [WebSocketManager(url)], [RequestManager(ws_manager)],
    ... have been constructed. *)
Definition initial : state :=
  mkState None ∅ ∅ false 0 ∅ [] [] [] [].

(** ** The monad: state that survives a raised exception *)

Definition M (A : Type) : Type := state → result A * state.

Definition ret {A} (a : A) : M A := λ σ, (Ok a, σ).
Definition raise {A} (e : exn) : M A := λ σ, (Raise e, σ).
Definition bind {A B} (m : M A) (k : A → M B) : M B :=
  λ σ, match m σ with
       | (Ok a, σ') => k a σ'
       | (Raise e, σ') => (Raise e, σ')
       end.

(** [try: m  except Exception as e: h e] *)
Definition try_except {A} (m : M A) (h : exn → M A) : M A :=
  λ σ, match m σ with
       | (Ok a, σ') => (Ok a, σ')
       | (Raise e, σ') => h e σ'
       end.

(** [try: m  finally: f] — [f] runs on both exits; if [f] itself raises, its
    exception replaces the outcome of [m]. *)
Definition try_finally {A} (m : M A) (f : M unit) : M A :=
  λ σ, match m σ with
       | (r, σ') =>
           match f σ' with
           | (Ok _, σ'') => (r, σ'')
           | (Raise e, σ'') => (Raise e, σ'')
           end
       end.

Definition get_state : M state := λ σ, (Ok σ, σ).
Definition modify (f : state → state) : M unit := λ σ, (Ok tt, f σ).
Definition lift {A} (r : result A) : M A := λ σ, (r, σ).
Definition log (lvl : level) (msg : string) : M unit := modify (emit (Log lvl msg)).

Declare Scope prog_scope.
Delimit Scope prog_scope with prog.
Notation "x ← y ; z" := (bind y (λ x, z))
  (at level 20, y at level 100, z at level 200, only parsing) : prog_scope.
Notation "y ;; z" := (bind y (λ _, z))
  (at level 100, z at level 200, only parsing, right associativity) : prog_scope.
Local Open Scope prog_scope.

(** [v.get(k, dflt)]: only a dict has [get]. *)
Definition py_get (v : json) (k : string) (dflt : json) : result json :=
  match v with
  | JObj d => Ok (dict_get d k dflt)
  | _ => Raise (AttributeError "get")
  end.

(** [v[k]] for a string key *)
Definition py_getitem (v : json) (k : string) : result json :=
  match v with
  | JObj d => match dict_lookup k d with Some x => Ok x | None => Raise (KeyError k) end
  | _ => Raise TypeError
  end.

(** ** asyncio.Queue *)

(** [Queue.full()] *)
Definition full (q : Queue) : bool :=
  if maxsize q <=? 0 then false else Z.of_nat (length (items q)) >=? maxsize q.

(** [asyncio.Queue()] *)
Definition new_queue : M qref :=
  λ σ, (Ok (length (heap σ)), set_heap (heap σ ++ [mkQueue 0 []]) σ).

(** [queue.put_nowait(x)] *)
Definition put_nowait (q : qref) (x : item) : M unit :=
  λ σ, match heap σ !! q with
       | None => (Raise RuntimeError, σ)
       | Some Q =>
           if full Q then (Raise QueueFull, σ)
           else (Ok tt, set_heap (<[q := mkQueue (maxsize Q) (items Q ++ [x])]> (heap σ)) σ)
       end.

(** [queue.get_nowait()], [None] when the queue is empty *)
Definition take (q : qref) (σ : state) : option (item * state) :=
  match heap σ !! q with
  | Some (mkQueue n (x :: rest)) => Some (x, set_heap (<[q := mkQueue n rest]> (heap σ)) σ)
  | _ => None
  end.

(** ** websocket_manager.py *)

(** What the network does to one [send]: the outcome of the handshake when
    [send] has to connect first, of the write, of [connection.close()] when
    the error path runs, and the frames that the listener task receives and
    routes while [send] is suspended in [await self.connection.send]. *)
Record send_io : Type := mkSendIo {
  connect_ok : bool;
  write_ok : bool;
  close_ok : bool;
  replies : list message
}.

(** What [await self.connection.recv()] does in one turn of the loop.
    [ConnectionClosedError] is a subclass of [ConnectionClosed]. *)
Inductive recv_result : Type :=
| Received (m : message)
| ConnectionClosedOK
| ConnectionClosedError
| Cancelled
| Failure.

(** One turn of the receive loop as the network sees it. *)
Record turn : Type := mkTurn {
  turn_connect_ok : bool;
  turn_recv : recv_result;
  turn_close_ok : bool
}.

Inductive control : Type := Continue | Break.
Inductive loop_status : Type :=
| Stopped       (* the while loop was left *)
| Awaiting.     (* the loop is alive, suspended in an await *)

Section Program.
Context `{Codec}.

Definition register_listener (request_id : string) : M qref :=
  try_except
    (σ ← get_state;
     match listeners σ !! request_id with
     | None =>
         queue ← new_queue;
         modify (λ σ, emit (Registered request_id)
                        (set_listeners (<[request_id := queue]> (listeners σ)) σ));;
         log Info "Registered new listener for request_id";;
         ret queue
     | Some queue =>
         log Info "Using existing queue for request_id";;
         ret queue
     end)
    (λ e, log Error "Error creating listener queue";; raise e).

Definition unregister_listener (request_id : string) : M unit :=
  σ ← get_state;
  match listeners σ !! request_id with
  | Some _ =>
      modify (λ σ, emit (Unregistered request_id)
                     (set_listeners (delete request_id (listeners σ)) σ));;
      log Info "Unregistered listener for request_id"
  | None => ret tt
  end.

(** [connect]: each of its three handlers logs an error and returns False. *)
Definition connect (ok : bool) : M bool :=
  log Info "Attempting to connect to WebSocket server";;
  modify (emit (Connect ok));;
  if ok then
    modify (set_connection (Some Socket));;
    log Success "WebSocket connection established successfully";;
    modify (set_current_retry 0);;
    ret true
  else
    log Error "Failed to connect to WebSocket server";;
    ret false.

Definition close (ok : bool) : M unit :=
  σ ← get_state;
  match connection σ with
  | Some _ =>
      if ok then
        modify (emit Closed);;
        log Info "WebSocket connection closed successfully"
      else log Error "Error during connection close"
  | None => ret tt
  end;;
  modify (set_running false);;
  modify (set_connection None).

Definition _route_message (msg : message) : M unit :=
  try_except
    (text ← match msg with
            | Text s => ret s
            | Binary b =>
                match decode_utf8 b with
                | Some s => ret s
                | None => raise UnicodeDecodeError
                end
            end;
     match json_loads text with
     | None => log Error "JSON decode error"
     | Some (JObj data) =>
         let request_id := dict_get data "requestId" JNull in
         if negb (truthy request_id) then
           log Warn "Received message without request ID"
         else
           let is_stream_end := dict_get data "isStreamEnd" (JBool false) in
           σ ← get_state;
           match request_id with
           | JStr rid =>
               match (match listeners σ !! rid with
                      | Some q => Some q
                      | None => stream_queues σ !! rid
                      end) with
               | None => log Error "No queue found for request_id"
               | Some queue =>
                   let data := match dict_lookup "response" data with
                               | Some response => dict_set "response" response data
                               | None => data
                               end in
                   delivered ←
                     try_except
                       (put_nowait queue (Some data);;
                        log Info "Message routed to queue for request_id";;
                        ret true)
                       (λ e, match e with
                             | QueueFull => log Error "Queue full for request_id"
                             | _ => log Error "Error putting message in queue"
                             end;;
                             ret false);
                   if delivered && truthy is_stream_end then
                     log Info "Stream end detected for request_id";;
                     unregister_listener rid
                   else ret tt
               end
           | JArr _ | JObj _ => raise TypeError          (* unhashable key *)
           | _ => log Error "No queue found for request_id" (* no str key equals it *)
           end
     | Some _ => raise (AttributeError "get")
     end)
    (λ e, log Error "Error processing message").

(** The body of the receive loop for a frame that [recv()] returned. *)
Definition on_message (m : message) : M unit :=
  log Info "Received message";;
  _route_message m;;
  modify (set_current_retry 0).

(** The listener task running while another coroutine is suspended. *)
Fixpoint listener_routes (ms : list message) : M unit :=
  match ms with
  | [] => ret tt
  | m :: ms' => on_message m;; listener_routes ms'
  end.

Definition send (msg : string) (request_id : string) (io : send_io) : M bool :=
  try_except
    (σ ← get_state;
     connected ← (if bool_decide (connection σ = None) || negb (running σ) then
                    ok ← connect (connect_ok io);
                    if ok then ret true
                    else
                      log Error "Failed to send message - WebSocket connection not available";;
                      ret false
                  else ret true);
     if connected then
       (if write_ok io then
          modify (emit (Sent msg request_id));;
          listener_routes (replies io)
        else raise ConnectionError);;
       log Info "Sent message";;
       ret true
     else ret false)
    (λ e, log Error "Failed to send message";;
          close (close_ok io);;
          ret false).

(** One turn of [while self.running] in [_listen]. *)
Definition iteration (t : turn) : M control :=
  σ ← get_state;
  connected ← (if bool_decide (connection σ = None) || negb (running σ) then
                 connect (turn_connect_ok t)
               else ret true);
  if negb connected then
    log Error "Failed to reconnect - retrying";;
    modify (emit (Sleep reconnect_delay));;
    ret Continue
  else
    match turn_recv t with
    | Received m => on_message m;; ret Continue
    | ConnectionClosedOK | ConnectionClosedError =>
        log Warn "WebSocket connection closed";;
        close (turn_close_ok t);;
        ret Continue
    | Cancelled => log Info "Message listener cancelled";; ret Break
    | Failure =>
        log Error "Error processing message";;
        modify (λ σ, set_current_retry (current_retry σ + 1) σ);;
        σ ← get_state;
        if current_retry σ >=? max_retries then
          log Error "Max retries reached - stopping listener";;
          ret Break
        else
          modify (emit (Sleep reconnect_delay));;
          ret Continue
    end.

(** What follows the loop of [_listen]. *)
Definition leave : M loop_status :=
  log Info "WebSocket message listener stopped";;
  modify (set_running false);;
  ret Stopped.

(** [_listen] against a finite script of network turns; when the script runs
    out with the loop still alive, the task is suspended: [Awaiting]. *)
Fixpoint _listen (script : list turn) : M loop_status :=
  σ ← get_state;
  if running σ then
    match script with
    | [] => ret Awaiting
    | t :: script' =>
        c ← iteration t;
        match c with
        | Continue => _listen script'
        | Break => leave
        end
    end
  else leave.

(** ** manager.py *)

Definition create_queue (request_id : string) : M qref :=
  log Info "Creating queue for request_id";;
  queue ← register_listener request_id;
  modify (λ σ, set_queues (<[request_id := queue]> (queues σ)) σ);;
  ret queue.

Definition cleanup_queue (request_id : string) : M unit :=
  log Info "Cleaning up queue for request_id";;
  unregister_listener request_id;;
  modify (λ σ, set_queues (delete request_id (queues σ)) σ).

(** [await queue.get()] under a timeout: the element at the head if there is
    one; otherwise the listener task routes the arriving frames one by one
    until the queue has an element; [None] when the frames that arrive before
    the timeout leave the queue empty. *)
Fixpoint await_get (queue : qref) (arrivals : list message) (σ : state)
    {struct arrivals} : result (option item) * state :=
  match take queue σ with
  | Some (x, σ') => (Ok (Some x), σ')
  | None =>
      match arrivals with
      | [] => (Ok None, σ)
      | m :: arrivals' => (on_message m;; await_get queue arrivals') σ
      end
  end.

Definition wait_for_response (request_id : string) (arrivals : list message) : M dict :=
  try_except
    (σ ← get_state;
     match queues σ !! request_id with
     | None =>
         log Error "Queue not found for request_id";;
         raise (HTTPException 404 (JStr ("Request not found: " +:+ request_id)))
     | Some queue =>
         done ← await_get queue arrivals;
         try_finally
           (match done with
            | Some (Some response) =>
                if is_success (Some response) then ret response
                else raise (HTTPException 500 (dict_get response "message" (JStr "Unknown error")))
            | Some None => raise (AttributeError "get")   (* None.get *)
            | None =>
                log Error "Timeout waiting for response for request_id";;
                raise (HTTPException 408 (JStr ("Request timeout: " +:+ request_id)))
            end)
           (modify (λ σ, set_queues (delete request_id (queues σ)) σ))
     end)
    (λ e, log Error "Error waiting for response";;
          modify (λ σ, set_queues (delete request_id (queues σ)) σ);;
          raise e).

(** ** request_manager.py *)

(** The names bound at module level in [request_manager.py] (its imports and
    its class), and the local variables of the two methods below. *)
Definition request_manager_globals : list string :=
  ["json"; "time"; "Logger"; "BaseManager"; "HTTPException";
   "BackgroundTasks"; "JSONResponse"; "RequestManager"].
Definition process_request_locals : list string :=
  ["self"; "request_id"; "request"; "response"; "error_msg"; "e"].
Definition handle_request_locals : list string :=
  ["self"; "request_id"; "request"].

(** Evaluating the name [x]: a local, else a global ([background_tasks] is no
    builtin), else [NameError]. *)
Definition name (locals globals : list string) (x : string) : M unit :=
  if bool_decide (x ∈ locals ++ globals) then ret tt else raise (NameError x).

Definition create_request (request_id : string) : M qref :=
  try_except (create_queue request_id)
    (λ e, log Error "Error creating request";; raise e).

(** [cleanup_request]: [background_tasks.add_task(background_cleanup)]. *)
Definition cleanup_request (request_id : string) : M unit :=
  modify (λ σ, set_scheduled (scheduled σ ++ [request_id]) σ).

(** The background task itself, run by FastAPI after the response. *)
Definition background_cleanup (request_id : string) : M unit :=
  try_except (cleanup_queue request_id)
    (λ e, log Error "Error cleaning up request").

Record unary_io : Type := mkUnaryIo {
  io_send : send_io;
  io_arrivals : list message;   (* frames received before the 30 s timeout *)
  io_now : Z                    (* int(time.time()) *)
}.

(** The content of the [JSONResponse] of [process_request]. *)
Definition completion (request_id : string) (created : Z) (model : json)
    (response : dict) : json :=
  JObj [("id", JStr request_id);
        ("object", JStr "chat.completion");
        ("created", JNum created);
        ("model", model);
        ("choices", JArr [JObj [("index", JNum 0);
                                ("message", JObj [("role", JStr "assistant");
                                                  ("content", dict_get response "response" (JStr ""))]);
                                ("finish_reason", JNull)]]);
        ("usage", JObj [("prompt_tokens", JNum 0);
                        ("completion_tokens", dict_get response "tokens_burned" (JNum 0));
                        ("total_tokens", dict_get response "tokens_burned" (JNum 0))])].

Definition process_request (request_id : string) (request : json) (io : unary_io) : M json :=
  log Info "Processing non-stream request";;
  try_except
    (create_request request_id;;
     send (json_dumps request) request_id (io_send io);;
     response ← wait_for_response request_id (io_arrivals io);
     if is_success (Some response) then
       args ← lift (py_getitem request "args");
       model ← lift (py_getitem args "model");
       ret (completion request_id (io_now io) model response)
     else
       raise (HTTPException 500 (dict_get response "message" (JStr "Unknown error"))))
    (λ e, log Error "Error processing request";;
          name process_request_locals request_manager_globals "background_tasks";;
          cleanup_request request_id;;
          raise e).

Definition handle_request (request_id : string) (request : json) (io : unary_io) : M json :=
  try_finally (process_request request_id request io)
    (name handle_request_locals request_manager_globals "background_tasks";;
     cleanup_request request_id).

(** ** stream_manager.py *)

Definition stream_manager_globals : list string :=
  ["Logger"; "BaseManager"; "HTTPException"; "BackgroundTasks";
   "StreamingResponse"; "AsyncGenerator"; "json"; "time"; "asyncio";
   "StreamManager"].
Definition handle_stream_locals : list string :=
  ["self"; "request_id"; "request"; "background_tasks"].

(** The async generator [generate_stream(request_id, model)], by the point
    where it is suspended. *)
Inductive generator : Type :=
| Created (request_id : string) (model : json)           (* not started *)
| Looping (request_id : string) (model : json) (queue : qref)  (* at the chunk yield *)
| Leaving                   (* at a terminal yield: [break] comes next *)
| Finished.

(** What one [__anext__()] gives the consumer. *)
Inductive pulled : Type :=
| Yield (s : string)
| StopAsyncIteration
| Raised (e : exn).

Record pull_io : Type := mkPullIo {
  pull_arrivals : list message;   (* frames received before the 30 s timeout *)
  pull_now : Z                    (* int(time.time()) *)
}.

Definition nl : string := String (Ascii.ascii_of_nat 10) "".
Definition sse_done : string := "data: [DONE]" +:+ nl +:+ nl.
Definition sse_timeout : string := "data: [TIMEOUT]" +:+ nl +:+ nl.

(** The [chunk] dict of [generate_stream]. *)
Definition chunk_object (request_id : string) (created : Z) (model token : json) : json :=
  JObj [("id", JStr request_id);
        ("object", JStr "chat.completion.chunk");
        ("created", JNum created);
        ("model", model);
        ("choices", JArr [JObj [("index", JNum 0);
                                ("delta", JObj [("content", token)]);
                                ("finish_reason", JNull)]])].

Definition sse_chunk (request_id : string) (created : Z) (model token : json) : string :=
  "data: " +:+ json_dumps (chunk_object request_id created model token) +:+ nl +:+ nl.

(** ["isStreamEnd" in data and data["isStreamEnd"]] *)
Definition is_stream_end (data : dict) : bool :=
  dict_mem "isStreamEnd" data && truthy (dict_get data "isStreamEnd" JNull).

Definition create_stream (request_id : string) : M qref :=
  try_except (create_queue request_id)
    (λ e, log Error "Error creating stream";; raise e).

Definition cleanup_stream (request_id : string) : M unit :=
  modify (λ σ, set_scheduled (scheduled σ ++ [request_id]) σ).

(** One turn of [while True] in [generate_stream], up to its next yield. *)
Definition loop_turn (request_id : string) (model : json) (queue : qref)
    (io : pull_io) : M (string * generator) :=
  try_except
    (data ← await_get queue (pull_arrivals io);
     match data with
     | None =>                                   (* asyncio.TimeoutError *)
         log Warn "Stream timeout for request";;
         ret (sse_timeout, Leaving)
     | Some None => raise TypeError              (* "isStreamEnd" in None *)
     | Some (Some data) =>
         if is_stream_end data then ret (sse_done, Leaving)
         else
           let token := dict_get data "chunk" (JStr "") in
           ret (sse_chunk request_id (pull_now io) model token,
                Looping request_id model queue)
     end)
    (λ e, log Error "Error in stream generation";;
          raise (HTTPExceptionStr 500 e)).

(** Resuming the generator once. *)
Definition generate_stream (g : generator) (io : pull_io) (σ : state)
    : pulled * generator * state :=
  let run (body : M (string * generator)) (σ : state) :=
    match try_except body (λ e, log Error "Stream generation error";; raise e) σ with
    | (Ok (s, g'), σ') => (Yield s, g', σ')
    | (Raise e, σ') => (Raised e, Finished, σ')
    end in
  match g with
  | Created request_id model =>
      run (σ ← get_state;
           match queues σ !! request_id with
           | None =>
               log Error "Queue not found for request_id";;
               raise (HTTPException 404 (JStr ("Stream not found: " +:+ request_id)))
           | Some queue => loop_turn request_id model queue io
           end)
          (emit (Log Info "Generating stream for request") σ)
  | Looping request_id model queue => run (loop_turn request_id model queue io) σ
  | Leaving | Finished => (StopAsyncIteration, Finished, σ)
  end.


Definition stream_response (request_id : string) (model : json) : M generator :=
  log Info "Creating streaming response for request";;
  ret (Created request_id model).

Definition process_stream (request_id : string) (request : json) (io : send_io) : M generator :=
  log Info "Processing stream request";;
  try_except
    (create_stream request_id;;
     send (json_dumps request) request_id io;;
     model ← lift (py_get request "model" (JStr "unknown"));
     stream_response request_id model)
    (λ e, log Error "Error processing stream request";;
          raise (HTTPExceptionStr 500 e)).

Definition handle_stream (request_id : string) (request : json) (io : send_io) : M generator :=
  try_finally (process_stream request_id request io)
    (name handle_stream_locals stream_manager_globals "background_tasks";;
     cleanup_stream request_id).

(** ** authentication_manager.py *)

Record auth_io : Type := mkAuthIo {
  auth_uuid : string;             (* str(uuid.uuid4()) *)
  auth_send : send_io;
  auth_arrivals : list message    (* frames received before auth_timeout *)
}.

Definition auth_request (wallet_address request_id : string) : json :=
  JObj [("method", JStr "walletAuth/authenticateWallet");
        ("args", JObj [("walletAddress", JStr wallet_address);
                       ("referred_by_id", JStr "");
                       ("telegramId", JNull)]);
        ("requestId", JStr request_id)].

Definition authenticate_wallet (wallet_address : string) (io : auth_io) : M bool :=
  try_except
    (log Info "Authenticating wallet";;
     let request_id := auth_uuid io in
     send (json_dumps (auth_request wallet_address request_id)) request_id (auth_send io);;
     response_queue ← register_listener request_id;
     try_finally
       (response ← await_get response_queue (auth_arrivals io);
        match response with
        | Some response =>
            if is_success response then
              modify (λ σ, set_authenticated_addresses
                             (authenticated_addresses σ ++ [wallet_address]) σ);;
              log Success "Wallet authenticated successfully";;
              ret true
            else
              log Error "Wallet authentication failed";;
              ret false
        | None =>                                (* asyncio.TimeoutError *)
            log Error "Authentication timeout for wallet";;
            ret false
        end)
       (unregister_listener request_id))
    (λ e, log Error "Error during wallet authentication";; ret false).

End Program.

(** ** logger.py *)

(** [c16] and [c256] *)
Definition c16 : list Z := [6; 2; 3; 4; 5; 1].
Definition c256 : list Z :=
  [20; 21; 26; 27; 32; 33; 38; 39; 40; 41; 42; 43; 44; 45; 56; 57; 62; 63; 68;
   69; 74; 75; 76; 77; 78; 79; 80; 81; 92; 93; 98; 99; 112; 113; 129; 134; 135;
   148; 149; 160; 161; 162; 163; 164; 165; 166; 167; 168; 169; 170; 171; 172;
   173; 178; 179; 184; 185; 196; 197; 198; 199; 200; 201; 202; 203; 204; 205;
   206; 207; 208; 209; 214; 215; 220; 221].

(** One turn of the loop of [Logger.code]: [h = (h << 3) - h + ord(ch) + 13],
    then the wrap to a signed 32-bit integer. *)
Definition code_step (h ch : Z) : Z :=
  let h := Z.shiftl h 3 - h + ch + 13 in
  (h + 2 ^ 31) mod 2 ^ 32 - 2 ^ 31.

(** The hash of [Logger.code] over the code points [ord(ch)] of the name. *)
Definition code_hash (name : list Z) : Z := fold_left code_step name 0.

(** [Logger.code(name, target)] where [colors] is [target.get("colors", 0)];
    [None] stands for the [IndexError] of the list access. *)
Definition code (name : list Z) (colors : Z) : option Z :=
  let h := code_hash name in
  let colors_list := if colors >=? 2 then c256 else c16 in
  colors_list !! Z.to_nat (Z.abs h mod Z.of_nat (length colors_list)).

(** [s.split(sep)] for a one-character separator *)
Fixpoint split_on (sep : Ascii.ascii) (s : string) : list string :=
  match s with
  | EmptyString => [EmptyString]
  | String c s' =>
      if Ascii.eqb c sep then EmptyString :: split_on sep s'
      else match split_on sep s' with
           | w :: ws => String c w :: ws
           | [] => [String c EmptyString]
           end
  end.

(** The character [:] *)
Definition colon : Ascii.ascii := Ascii.ascii_of_nat 58.

(** The loop of [get_level]: walk the configuration along the path. *)
Fixpoint walk_levels (paths : list string) (config : json) : json :=
  match paths, config with
  | key :: paths', JObj d =>
      match dict_lookup key d with
      | Some v => walk_levels paths' v
      | None => dict_get d "base" config
      end
  | _, _ => config
  end.

(** [Logger.levels], which nothing in the repository reassigns *)
Definition Logger_levels : dict := [("base", JNum 2)].

(** [Logger(name).get_level(target)] where [levels] is the entry "levels" of
    the target, if it has one. *)
Definition get_level (name : string) (levels : option json) : Z :=
  let config := walk_levels (split_on colon name)
                  (default (JObj Logger_levels) levels) in
  match config with
  | JNum n => n
  | JBool b => if b then 1 else 0
  | _ => match dict_get Logger_levels "base" (JNum 2) with JNum n => n | _ => 2 end
  end.

(** [Logger.SUCCESS], [ERROR], [INFO], [WARN]; [DEBUG] is 3. *)
Definition level_number (lvl : level) : Z :=
  match lvl with
  | Success | Error => 1
  | Info | Warn => 2
  end.
Definition DEBUG : Z := 3.

(** The test of [log_method]: a target gets the record unless
    [self.get_level(target) < level]. *)
Definition reaches (name : string) (levels : option json) (lvl : Z) : bool :=
  negb (get_level name levels <? lvl).

(** ** A codec to run the program on concrete frames

    [render] prints a JSON value the way [json.dumps] does for values whose
    strings need no escaping; [table_codec] decodes exactly the texts that
    [render] gives for the frames of [known_frames], and nothing else. *)

Definition quote : string := String (Ascii.ascii_of_nat 34) "".

Fixpoint render (j : json) : string :=
  match j with
  | JNull => "null"
  | JBool b => if b then "true" else "false"
  | JNum n => pretty n
  | JStr s => quote +:+ s +:+ quote
  | JArr l =>
      "[" +:+
      (fix elems (l : list json) : string :=
         match l with
         | [] => ""
         | x :: l' =>
             render x +:+ match l' with [] => "" | _ => ", " +:+ elems l' end
         end) l +:+ "]"
  | JObj f =>
      "{" +:+
      (fix fields (f : list (string * json)) : string :=
         match f with
         | [] => ""
         | (k, v) :: f' =>
             quote +:+ k +:+ quote +:+ ": " +:+ render v +:+
             match f' with [] => "" | _ => ", " +:+ fields f' end
         end) f +:+ "}"
  end.

Definition unary_success (rid text : string) (tokens : Z) : json :=
  JObj [("requestId", JStr rid); ("code", JNum 200);
        ("response", JStr text); ("tokens_burned", JNum tokens)].
Definition unary_failure (rid : string) (code : Z) (text : string) : json :=
  JObj [("requestId", JStr rid); ("code", JNum code); ("message", JStr text)].
Definition stream_chunk (rid text : string) : json :=
  JObj [("requestId", JStr rid); ("chunk", JStr text)].
Definition stream_end (rid : string) : json :=
  JObj [("requestId", JStr rid); ("isStreamEnd", JBool true)].

Definition known_frames : list json :=
  [unary_success "r1" "hi" 3;
   unary_success "u1" "ok" 0;
   unary_failure "u1" 401 "denied";
   unary_failure "r2" 500 "boom";
   stream_chunk "r2" "Hel";
   stream_chunk "r2" "lo";
   stream_end "r2";
   JObj [("code", JNum 200)];
   JArr [JNum 1]].

Definition table_loads (s : string) : option json :=
  List.find (λ j, String.eqb (render j) s) known_frames.

Definition table_codec : Codec :=
  {| json_loads := table_loads; json_dumps := render; decode_utf8 := Some |}.

(** A connected process whose listener task is running. *)
Definition serving : state :=
  mkState (Some Socket) ∅ ∅ true 0 ∅ [] [] [] [].

Definition quiet_send : send_io := mkSendIo true true true [].

(** The frame that [main.py] builds for a completion request. *)
Definition sample_request (rid : string) (stream : bool) : json :=
  JObj [("method", JStr "completion/getCompletion");
        ("args", JObj [("provider", JStr "openai");
                       ("messages", JArr []);
                       ("model", JStr "gpt-4o");
                       ("history_id", JStr "h1");
                       ("stream", JBool stream)]);
        ("requestId", JStr rid)].

(** In the events of one call, every frame sent for [rid] comes after the
    registration of [rid]. *)
Definition registered_before_sent (rid : string) (events : list event) : Prop :=
  ∀ i msg, events !! i = Some (Sent msg rid) →
           ∃ j, (j < i)%nat ∧ events !! j = Some (Registered rid).

(** What one failed reconnection attempt of the receive loop leaves in the
    trace, and what the handling of a closed connection does. *)
Definition failed_attempt : list event :=
  [Log Info "Attempting to connect to WebSocket server";
   Connect false;
   Log Error "Failed to connect to WebSocket server";
   Log Error "Failed to reconnect - retrying";
   Sleep reconnect_delay].
Definition closing (close_ok : bool) : list event :=
  [Log Warn "WebSocket connection closed"] ++
  (if close_ok then [Closed; Log Info "WebSocket connection closed successfully"]
   else [Log Error "Error during connection close"]) ++
  [Log Info "WebSocket message listener stopped"].

(** The number of elements waiting in the channel registered for [rid]. *)
Definition backlog (rid : string) (σ : state) : nat :=
  match listeners σ !! rid with
  | Some q =>
      match heap σ !! q with
      | Some Q => length (items Q)
      | None => 0%nat
      end
  | None => 0%nat
  end.

(** Register ["r2"], then let the listener route [n] chunk frames for it while
    nobody reads the channel. *)
Definition flood (n : nat) : state :=
  (listener_routes (H := table_codec)
     (replicate n (Text (render (stream_chunk "r2" "Hel"))))
     (register_listener "r2" serving).2).2.

(** ** Vocabulary of the properties *)

Section Vocabulary.
Context `{Codec}.

(** The text of a frame once [bytes] are decoded. *)
Definition wire_text (msg : message) : option string :=
  match msg with
  | Text s => Some s
  | Binary b => decode_utf8 b
  end.

(** A decoded value is a dict; a value cannot be a dict key (a list or a
    dict is unhashable); a value is a number or a boolean. *)
Definition is_object (j : json) : bool :=
  match j with JObj _ => true | _ => false end.
Definition unhashable (j : json) : bool :=
  match j with JArr _ | JObj _ => true | _ => false end.
Definition is_number (j : json) : bool :=
  match j with JNum _ | JBool _ => true | _ => false end.

(** The frames that have no consumer, with the log line each one gets:
    bytes that are not UTF-8, text that is not JSON, JSON that is not an
    object, an object whose [requestId] is missing or falsy ([null], [false],
    [0], the empty string, list or object), a [requestId] that is a list or
    an object, one that is a number or [true], and a string with no queue. *)
Inductive unroutable (σ : state) : message → level → string → Prop :=
| undecodable_bytes b :
    decode_utf8 b = None →
    unroutable σ (Binary b) Error "Error processing message"
| undecodable_json msg s :
    wire_text msg = Some s → json_loads s = None →
    unroutable σ msg Error "JSON decode error"
| not_an_object msg s j :
    wire_text msg = Some s → json_loads s = Some j → is_object j = false →
    unroutable σ msg Error "Error processing message"
| missing_id msg s d :
    wire_text msg = Some s → json_loads s = Some (JObj d) →
    truthy (dict_get d "requestId" JNull) = false →
    unroutable σ msg Warn "Received message without request ID"
| unhashable_id msg s d :
    wire_text msg = Some s → json_loads s = Some (JObj d) →
    truthy (dict_get d "requestId" JNull) = true →
    unhashable (dict_get d "requestId" JNull) = true →
    unroutable σ msg Error "Error processing message"
| foreign_id msg s d :
    wire_text msg = Some s → json_loads s = Some (JObj d) →
    truthy (dict_get d "requestId" JNull) = true →
    is_number (dict_get d "requestId" JNull) = true →
    unroutable σ msg Error "No queue found for request_id"
| unknown_id msg s d rid :
    wire_text msg = Some s → json_loads s = Some (JObj d) →
    dict_lookup "requestId" d = Some (JStr rid) → rid ≠ "" →
    listeners σ !! rid = None → stream_queues σ !! rid = None →
    unroutable σ msg Error "No queue found for request_id".

(** The queue that the router picks for a string id: the listener's, else
    the one in [stream_queues]. *)
Definition consumer (σ : state) (rid : string) : option qref :=
  match listeners σ !! rid with
  | Some q => Some q
  | None => stream_queues σ !! rid
  end.

(** What the router does with a frame whose id has a queue in [listeners]. *)
Definition after_delivery (rid : string) (q : qref) (Q : Queue) (d : dict)
    (σ : state) : state :=
  let σ1 := emit (Log Info "Message routed to queue for request_id")
              (set_heap (<[q := mkQueue (maxsize Q) (items Q ++ [Some d])]> (heap σ)) σ) in
  if truthy (dict_get d "isStreamEnd" (JBool false)) then
    emit (Log Info "Unregistered listener for request_id")
      (emit (Unregistered rid)
         (set_listeners (delete rid (listeners σ))
            (emit (Log Info "Stream end detected for request_id") σ1)))
  else σ1.

(** What the wait of [authenticate_wallet] obtains from its queue: the
    element delivered within the timeout, if any. *)
Definition auth_delivery (wallet_address : string) (io : auth_io) (σ : state)
    : option item :=
  let request_id := auth_uuid io in
  let σ1 := (send (json_dumps (auth_request wallet_address request_id)) request_id
               (auth_send io) (emit (Log Info "Authenticating wallet") σ)).2 in
  match register_listener request_id σ1 with
  | (Ok response_queue, σ2) =>
      match await_get response_queue (auth_arrivals io) σ2 with
      | (Ok response, _) => response
      | (Raise _, _) => None
      end
  | (Raise _, _) => None
  end.

End Vocabulary.

(** A computation keeps a relation between the state it starts from and the
    state it leaves, on every exit. *)
Definition keeps {A} (R : state → state → Prop) (m : M A) : Prop :=
  ∀ σ, R σ (m σ).2.

(** Relations that hold across everything the connection does: it only
    logs and replaces the socket, the running flag and the retry counter. *)
Class ConnectionFrame (R : state → state → Prop) : Prop := {
  frame_preorder :: PreOrder R;
  frame_emit e σ : R σ (emit e σ);
  frame_connection c σ : R σ (set_connection c σ);
  frame_running b σ : R σ (set_running b σ);
  frame_current_retry n σ : R σ (set_current_retry n σ)
}.

(** Relations that also hold across what the listener task does: it replaces
    the heap of queues and the registry as well. *)
Class NetworkFrame (R : state → state → Prop) : Prop := {
  frame_base :: ConnectionFrame R;
  frame_heap h σ : R σ (set_heap h σ);
  frame_listeners l σ : R σ (set_listeners l σ)
}.

(** The manager-side fields, which the connection and the listener never
    write. *)
Definition untouched (σ σ' : state) : Prop :=
  authenticated_addresses σ' = authenticated_addresses σ ∧
  queues σ' = queues σ ∧ scheduled σ' = scheduled σ.

(** The trace only grows. *)
Definition extends (σ σ' : state) : Prop :=
  ∃ more, trace σ' = trace σ ++ more.

(** The registry, the managers' queues and the queue objects are the same. *)
Definition same_store (σ σ' : state) : Prop :=
  listeners σ' = listeners σ ∧ stream_queues σ' = stream_queues σ ∧
  queues σ' = queues σ ∧ heap σ' = heap σ.

(** [json["k"]] and [json[i]] when present *)
Definition field (k : string) (j : json) : option json :=
  match j with JObj d => dict_lookup k d | _ => None end.
Definition elem (i : nat) (j : json) : option json :=
  match j with JArr l => l !! i | _ => None end.

(** [c["choices"][0]["message"]["content"]] and
    [c["usage"]["completion_tokens"]] of a completion object *)
Definition message_content (c : json) : option json :=
  match field "choices" c with
  | Some choices =>
      match elem 0 choices with
      | Some choice =>
          match field "message" choice with
          | Some message => field "content" message
          | None => None
          end
      | None => None
      end
  | None => None
  end.
Definition completion_tokens (c : json) : option json :=
  match field "usage" c with
  | Some usage => field "completion_tokens" usage
  | None => None
  end.



(** No cleanup was added to the background tasks. *)
Definition same_scheduled (σ σ' : state) : Prop := scheduled σ' = scheduled σ.

(** The events that the router may add to the trace: log lines and the
    removal of a listener. *)
Definition quiet (e : event) : bool :=
  match e with
  | Log _ _ | Unregistered _ => true
  | _ => false
  end.

(** What routing inbound frames may do to the state: nothing to the socket,
    the running flag or the managers' fields; registry entries only go away;
    queues only get longer at the tail; the trace gets [quiet] events. *)
Record passive (σ σ' : state) : Prop := mkPassive {
  passive_connection : connection σ' = connection σ;
  passive_running : running σ' = running σ;
  passive_manager : untouched σ σ';
  passive_stream_queues : stream_queues σ' = stream_queues σ;
  passive_listeners :
    ∀ rid, listeners σ' !! rid = None ∨ listeners σ' !! rid = listeners σ !! rid;
  passive_heap_length : length (heap σ') = length (heap σ);
  passive_heap :
    ∀ q Q, heap σ !! q = Some Q →
           ∃ extra, heap σ' !! q = Some (mkQueue (maxsize Q) (items Q ++ extra));
  passive_trace :
    ∃ more, trace σ' = trace σ ++ more ∧ forallb quiet more = true
}.

(** * Properties *)

(** ** Running monadic code symbolically *)

Section Laws.
Context {A B C : Type}.

Lemma bind_assoc (m : M A) (k : A → M B) (k' : B → M C) σ :
  bind (bind m k) k' σ = bind m (λ a, bind (k a) k') σ.
Proof. unfold bind. destruct (m σ) as [[a|e] σ']; reflexivity. Qed.

Lemma bind_ret (a : A) (k : A → M B) σ : bind (ret a) k σ = k a σ.
Proof. reflexivity. Qed.

Lemma bind_raise (e : exn) (k : A → M B) σ : bind (raise e) k σ = (Raise e, σ).
Proof. reflexivity. Qed.

Lemma bind_get_state (k : state → M B) σ : bind get_state k σ = k σ σ.
Proof. reflexivity. Qed.

Lemma bind_modify f (k : unit → M B) σ : bind (modify f) k σ = k tt (f σ).
Proof. reflexivity. Qed.

Lemma bind_log lvl msg (k : unit → M B) σ :
  bind (log lvl msg) k σ = k tt (emit (Log lvl msg) σ).
Proof. reflexivity. Qed.

Lemma bind_lift_ok (a : A) (k : A → M B) σ : bind (lift (Ok a)) k σ = k a σ.
Proof. reflexivity. Qed.

Lemma bind_lift_raise (e : exn) (k : A → M B) σ :
  bind (lift (Raise e)) k σ = (Raise e, σ).
Proof. reflexivity. Qed.

End Laws.

(** One step of evaluation at the head of a monadic term applied to a state. *)
Ltac mstep :=
  first [ rewrite bind_assoc | rewrite bind_ret | rewrite bind_raise
        | rewrite bind_get_state | rewrite bind_modify | rewrite bind_log
        | rewrite bind_lift_ok | rewrite bind_lift_raise ].
Ltac mrun := repeat first [ mstep | progress cbn [negb orb andb] ].

(** ** Relations kept by every step *)

Global Instance untouched_preorder : PreOrder untouched.
Proof.
  split.
  - by intros σ.
  - intros σ1 σ2 σ3 (?&?&?) (?&?&?). unfold untouched. split_and!; congruence.
Qed.

Global Instance untouched_connection : ConnectionFrame untouched.
Proof. split; try done. apply _. Qed.

Global Instance untouched_frame : NetworkFrame untouched.
Proof. split; try done. apply _. Qed.

Global Instance extends_preorder : PreOrder extends.
Proof.
  split.
  - intros σ. exists []. by rewrite app_nil_r.
  - intros σ1 σ2 σ3 [l1 H1] [l2 H2]. exists (l1 ++ l2).
    by rewrite H2, H1, app_assoc.
Qed.

Global Instance extends_connection : ConnectionFrame extends.
Proof.
  split; try apply _; intros; try (by exists []; rewrite app_nil_r).
  by eexists [_].
Qed.

Global Instance extends_frame : NetworkFrame extends.
Proof. split; try apply _; intros; by exists []; rewrite app_nil_r. Qed.

Global Instance same_store_preorder : PreOrder same_store.
Proof.
  split.
  - by intros σ.
  - intros σ1 σ2 σ3 (?&?&?&?) (?&?&?&?). unfold same_store. split_and!; congruence.
Qed.

Global Instance same_store_connection : ConnectionFrame same_store.
Proof. split; try done. apply _. Qed.

Section Keeps.
Context (R : state → state → Prop) `{!PreOrder R}.
Context {A B : Type}.

Lemma keeps_ret (a : A) : keeps R (ret a).
Proof. by intros σ. Qed.

Lemma keeps_raise (e : exn) : keeps R (raise (A := A) e).
Proof. by intros σ. Qed.

Lemma keeps_lift (r : result A) : keeps R (lift r).
Proof. by intros σ. Qed.

Lemma keeps_get_state : keeps R get_state.
Proof. by intros σ. Qed.

Lemma keeps_modify f : (∀ σ, R σ (f σ)) → keeps R (modify f).
Proof. intros Hf σ. apply Hf. Qed.

Lemma keeps_bind (m : M A) (k : A → M B) :
  keeps R m → (∀ a, keeps R (k a)) → keeps R (bind m k).
Proof.
  intros Hm Hk σ. unfold bind. specialize (Hm σ).
  destruct (m σ) as [[a|e] σ']; [|done].
  etrans; [exact Hm|apply Hk].
Qed.

Lemma keeps_try_except (m : M A) (h : exn → M A) :
  keeps R m → (∀ e, keeps R (h e)) → keeps R (try_except m h).
Proof.
  intros Hm Hh σ. unfold try_except. specialize (Hm σ).
  destruct (m σ) as [[a|e] σ']; [done|].
  etrans; [exact Hm|apply Hh].
Qed.

Lemma keeps_try_finally (m : M A) (f : M unit) :
  keeps R m → keeps R f → keeps R (try_finally m f).
Proof.
  intros Hm Hf σ. unfold try_finally. specialize (Hm σ).
  destruct (m σ) as [r σ']. specialize (Hf σ').
  destruct (f σ') as [[[]|e] σ'']; cbn in *; by etrans.
Qed.

End Keeps.

(** Decompose a goal [keeps R m] along the syntax of [m]. *)
Ltac keeps_step :=
  lazymatch goal with
  | |- keeps _ (bind _ _) => apply keeps_bind; [try apply _| |intros ?]
  | |- keeps _ (try_except _ _) => apply keeps_try_except; [try apply _| |intros ?]
  | |- keeps _ (try_finally _ _) => apply keeps_try_finally; [try apply _| |]
  | |- keeps _ (ret _) => apply keeps_ret; apply _
  | |- keeps _ (raise _) => apply keeps_raise; apply _
  | |- keeps _ (lift _) => apply keeps_lift; apply _
  | |- keeps _ get_state => apply keeps_get_state; apply _
  | |- keeps _ (log _ _) => apply keeps_modify; intros ?; apply frame_emit
  | |- keeps _ (match ?x with _ => _ end) => destruct x
  end.

Section ConnectionKeeps.
Context `{Codec} (R : state → state → Prop) `{!ConnectionFrame R}.

Lemma keeps_connect ok : keeps R (connect ok).
Proof.
  unfold connect. repeat keeps_step; apply keeps_modify; intros σ;
    first [apply frame_emit | apply frame_connection | apply frame_current_retry].
Qed.

Lemma keeps_close ok : keeps R (close ok).
Proof.
  unfold close. repeat keeps_step; apply keeps_modify; intros σ;
    first [apply frame_emit | apply frame_connection | apply frame_running].
Qed.

(** A [send] during which no frame comes in. *)
Lemma keeps_send_quiet msg rid io :
  replies io = [] → keeps R (send msg rid io).
Proof.
  intros Hq. unfold send. rewrite Hq. cbn [listener_routes].
  repeat first [ apply keeps_connect | apply keeps_close | keeps_step ].
  apply keeps_modify. intros σ. apply frame_emit.
Qed.

End ConnectionKeeps.

Section NetworkKeeps.
Context `{Codec} (R : state → state → Prop) `{!NetworkFrame R}.

Lemma keeps_log lvl msg : keeps R (log lvl msg).
Proof. keeps_step. Qed.

Lemma keeps_register_listener rid : keeps R (register_listener rid).
Proof.
  unfold register_listener, new_queue. repeat keeps_step.
  - intros σ. apply frame_heap.
  - apply keeps_modify. intros σ. etrans; [apply frame_listeners|apply frame_emit].
Qed.

Lemma keeps_unregister_listener rid : keeps R (unregister_listener rid).
Proof.
  unfold unregister_listener. repeat keeps_step.
  apply keeps_modify. intros σ. etrans; [apply frame_listeners|apply frame_emit].
Qed.

Lemma keeps_put_nowait q x : keeps R (put_nowait q x).
Proof.
  intros σ. unfold put_nowait. repeat case_match; cbn; try done.
  apply frame_heap.
Qed.

Lemma keeps_route_message msg : keeps R (_route_message msg).
Proof.
  unfold _route_message. cbv zeta.
  repeat first [ apply keeps_put_nowait | apply keeps_unregister_listener
               | keeps_step ].
Qed.

Lemma keeps_on_message msg : keeps R (on_message msg).
Proof.
  unfold on_message.
  repeat first [ apply keeps_route_message | keeps_step ].
  apply keeps_modify. intros σ. apply frame_current_retry.
Qed.

Lemma keeps_listener_routes ms : keeps R (listener_routes ms).
Proof.
  induction ms as [|m ms IH]; cbn [listener_routes].
  - keeps_step.
  - keeps_step; [apply keeps_on_message | done].
Qed.

Lemma keeps_send msg rid io : keeps R (send msg rid io).
Proof.
  unfold send.
  repeat first [ apply keeps_connect; apply _ | apply keeps_close; apply _
               | apply keeps_listener_routes | keeps_step ].
  apply keeps_modify. intros σ. apply frame_emit.
Qed.

Lemma keeps_await_get q arrivals : keeps R (await_get q arrivals).
Proof.
  induction arrivals as [|m ms IH]; intros σ; cbn [await_get];
    destruct (take q σ) as [[x σ']|] eqn:Ht.
  - unfold take in Ht. repeat case_match; simplify_eq. apply frame_heap.
  - done.
  - unfold take in Ht. repeat case_match; simplify_eq. apply frame_heap.
  - revert σ Ht. intros σ _. revert σ. change (keeps R (bind (on_message m) (λ _, await_get q ms))).
    keeps_step; [apply keeps_on_message | done].
Qed.

End NetworkKeeps.

(** ** Calls that cannot raise *)

Section Returns.
Context `{Codec}.

(** No exception leaves [_route_message], whatever the frame. *)
Lemma _route_message_returns msg σ : ∃ σ', _route_message msg σ = (Ok tt, σ').
Proof.
  unfold _route_message, try_except.
  match goal with |- context [match ?b σ with _ => _ end] => destruct (b σ) as [[[]|e] σ'] end.
  - by eexists.
  - by eexists.
Qed.

Lemma on_message_returns m σ : ∃ σ', on_message m σ = (Ok tt, σ').
Proof.
  unfold on_message. mrun.
  destruct (_route_message_returns m (emit (Log Info "Received message") σ)) as [σ' Hr].
  unfold bind. rewrite Hr. by eexists.
Qed.

Lemma listener_routes_returns ms σ : ∃ σ', listener_routes ms σ = (Ok tt, σ').
Proof.
  revert σ. induction ms as [|m ms IH]; intros σ; cbn [listener_routes].
  - by eexists.
  - destruct (on_message_returns m σ) as [σ' Hm].
    unfold bind. rewrite Hm. apply IH.
Qed.

Lemma await_get_returns q arrivals σ : ∃ r σ', await_get q arrivals σ = (Ok r, σ').
Proof.
  revert σ. induction arrivals as [|m ms IH]; intros σ; cbn [await_get];
    destruct (take q σ) as [[x σ']|]; try by eexists _, _.
  destruct (on_message_returns m σ) as [σ' Hm].
  unfold bind. rewrite Hm. apply IH.
Qed.

Lemma connect_returns ok σ : ∃ σ', connect ok σ = (Ok ok, σ').
Proof. unfold connect. destruct ok; mrun; by eexists. Qed.

Lemma close_returns ok σ : ∃ σ', close ok σ = (Ok tt, σ').
Proof.
  unfold close. mrun. destruct (connection σ); [destruct ok|]; mrun; by eexists.
Qed.

Lemma send_returns msg rid io σ : ∃ b σ', send msg rid io σ = (Ok b, σ').
Proof.
  unfold send, try_except. mrun.
  assert (Hgo : ∀ σ1, ∃ b σ',
    match
      bind (if write_ok io
            then bind (modify (emit (Sent msg rid))) (λ _, listener_routes (replies io))
            else raise ConnectionError)
        (λ _, bind (log Info "Sent message") (λ _, ret true)) σ1
    with
    | (Ok a, σ') => (Ok a, σ')
    | (Raise e, σ') =>
        bind (log Error "Failed to send message")
          (λ _, bind (close (close_ok io)) (λ _, ret false)) σ'
    end = (Ok b, σ')).
  { intros σ1. destruct (write_ok io); mrun.
    - destruct (listener_routes_returns (replies io) (emit (Sent msg rid) σ1)) as [σ2 Hl].
      unfold bind at 1. rewrite Hl. mrun. by eexists _, _.
    - destruct (close_returns (close_ok io) (emit (Log Error "Failed to send message") σ1))
        as [σ2 Hc].
      unfold bind. rewrite Hc. by eexists _, _. }
  destruct (bool_decide (connection σ = None) || negb (running σ)).
  - rewrite bind_assoc.
    destruct (connect_returns (connect_ok io) σ) as [σ1 Hc].
    unfold bind at 1. rewrite Hc. destruct (connect_ok io); mrun.
    + apply Hgo.
    + by eexists _, _.
  - mrun. apply Hgo.
Qed.

End Returns.

Section Registry.

Lemma listeners_emit e σ : listeners (emit e σ) = listeners σ.
Proof. reflexivity. Qed.

Lemma register_listener_new rid σ :
  listeners σ !! rid = None →
  register_listener rid σ =
    (Ok (length (heap σ)),
     emit (Log Info "Registered new listener for request_id")
       (emit (Registered rid)
          (set_listeners (<[rid := length (heap σ)]> (listeners σ))
             (set_heap (heap σ ++ [mkQueue 0 []]) σ)))).
Proof.
  intros Hnone. unfold register_listener, try_except, bind, get_state.
  rewrite Hnone. reflexivity.
Qed.

Lemma register_listener_existing rid q σ :
  listeners σ !! rid = Some q →
  register_listener rid σ =
    (Ok q, emit (Log Info "Using existing queue for request_id") σ).
Proof.
  intros Hsome. unfold register_listener, try_except, bind, get_state.
  rewrite Hsome. reflexivity.
Qed.

Lemma unregister_listener_absent rid σ :
  listeners σ !! rid = None → unregister_listener rid σ = (Ok tt, σ).
Proof.
  intros Hnone. unfold unregister_listener, bind, get_state.
  rewrite Hnone. reflexivity.
Qed.

Lemma unregister_listener_present rid q σ :
  listeners σ !! rid = Some q →
  unregister_listener rid σ =
    (Ok tt, emit (Log Info "Unregistered listener for request_id")
              (emit (Unregistered rid)
                 (set_listeners (delete rid (listeners σ)) σ))).
Proof.
  intros Hsome. unfold unregister_listener, bind, get_state.
  rewrite Hsome. reflexivity.
Qed.

End Registry.

(** ** Idempotent registration *)

(** C7: registering the same correlation id twice returns the same channel:
    the second [register_listener] returns the queue of the first and changes
    nothing but the log (no second queue, no second entry); and
    [unregister_listener] on an absent id changes nothing at all, so it can
    be called any number of times. *)
Theorem register_idempotent_unregister_noop (rid : string) (σ : state) :
  (∃ q σ1,
      register_listener rid σ = (Ok q, σ1) ∧
      listeners σ1 !! rid = Some q ∧
      register_listener rid σ1 =
        (Ok q, emit (Log Info "Using existing queue for request_id") σ1)) ∧
  (listeners σ !! rid = None → unregister_listener rid σ = (Ok tt, σ)) ∧
  (∃ σ1,
      unregister_listener rid σ = (Ok tt, σ1) ∧
      listeners σ1 !! rid = None ∧
      unregister_listener rid σ1 = (Ok tt, σ1)).
Proof.
  split; [|split].
  - destruct (listeners σ !! rid) as [q|] eqn:Hl.
    + exists q, (emit (Log Info "Using existing queue for request_id") σ).
      split; [by apply register_listener_existing|].
      split; [done|]. by apply register_listener_existing.
    + eexists _, _. split; [by apply register_listener_new|].
      assert (Hin : ∀ (m : gmap string qref) n, <[rid := n]> m !! rid = Some n)
        by (intros; apply lookup_insert_eq).
      split; [apply Hin|]. apply register_listener_existing, Hin.
  - apply unregister_listener_absent.
  - destruct (listeners σ !! rid) as [q|] eqn:Hl.
    + eexists. split; [by eapply unregister_listener_present|].
      assert (Hout : ∀ m : gmap string qref, delete rid m !! rid = None)
        by (intros; apply lookup_delete_eq).
      split; [apply Hout|]. apply unregister_listener_absent, Hout.
    + exists σ. split; [by apply unregister_listener_absent|].
      split; [done|]. by apply unregister_listener_absent.
Qed.

Lemma register_idempotent_unregister_noop_witness :
  unregister_listener "r1" initial = (Ok tt, initial).
Proof.
  apply (proj1 (proj2 (register_idempotent_unregister_noop "r1" initial))).
  reflexivity.
Defined.

(** ** The router *)

Section Router.
Context `{Codec}.

Lemma wire_text_bind {A} msg s (k : string → M A) σ :
  wire_text msg = Some s →
  bind (match msg with
        | Text s => ret s
        | Binary b =>
            match decode_utf8 b with
            | Some s => ret s
            | None => raise UnicodeDecodeError
            end
        end) k σ = k s σ.
Proof.
  destruct msg as [t|b]; simpl.
  - by intros [= ->].
  - intros ->. reflexivity.
Qed.

Lemma _route_message_unroutable msg σ lvl txt :
  unroutable σ msg lvl txt →
  _route_message msg σ = (Ok tt, emit (Log lvl txt) σ).
Proof.
  destruct 1 as [b Hb | msg s Ht Hj | msg s j Ht Hj Hobj | msg s d Ht Hj Hid
                | msg s d Ht Hj Hid Hun | msg s d Ht Hj Hid Hnum
                | msg s d rid Ht Hj Hid Hne Hl Hs];
    unfold _route_message, try_except.
  - cbn. by rewrite Hb.
  - by rewrite (wire_text_bind _ _ _ _ Ht), Hj.
  - rewrite (wire_text_bind _ _ _ _ Ht), Hj. by destruct j.
  - rewrite (wire_text_bind _ _ _ _ Ht), Hj. by rewrite Hid.
  - rewrite (wire_text_bind _ _ _ _ Ht), Hj. rewrite Hid. cbn [negb]. mrun.
    by destruct (dict_get d "requestId" JNull).
  - rewrite (wire_text_bind _ _ _ _ Ht), Hj. rewrite Hid. cbn [negb]. mrun.
    by destruct (dict_get d "requestId" JNull).
  - rewrite (wire_text_bind _ _ _ _ Ht), Hj.
    unfold dict_get. rewrite Hid. simpl.
    destruct (String.eqb_spec rid "") as [->|_]; [done|]. simpl.
    unfold bind at 1, get_state. rewrite Hl, Hs. reflexivity.
Qed.

Lemma unroutable_emit e σ msg lvl txt :
  unroutable σ msg lvl txt → unroutable (emit e σ) msg lvl txt.
Proof.
  destruct 1;
    [ eapply undecodable_bytes | eapply undecodable_json | eapply not_an_object
    | eapply missing_id | eapply unhashable_id | eapply foreign_id
    | eapply unknown_id ]; eauto.
Qed.

(** The classes of [unroutable] leave no frame out: a frame is unroutable or
    it is an object whose [requestId] is a non-empty string with a queue. *)
Lemma unroutable_or_consumed msg σ :
  (∃ lvl txt, unroutable σ msg lvl txt) ∨
  (∃ s d rid q, wire_text msg = Some s ∧ json_loads s = Some (JObj d) ∧
                dict_lookup "requestId" d = Some (JStr rid) ∧ rid ≠ "" ∧
                consumer σ rid = Some q).
Proof.
  destruct (wire_text msg) as [s|] eqn:Ht.
  2: { destruct msg as [t|b]; [done|]. left. eexists _, _.
       by apply undecodable_bytes. }
  destruct (json_loads s) as [j|] eqn:Hj.
  2: { left. eexists _, _. by eapply undecodable_json. }
  destruct (is_object j) eqn:Hobj.
  2: { left. eexists _, _. by eapply not_an_object. }
  destruct j as [| | | | |d]; try done.
  destruct (truthy (dict_get d "requestId" JNull)) eqn:Htr.
  2: { left. eexists _, _. by eapply missing_id. }
  destruct (dict_get d "requestId" JNull) as [|b|n|rid|l|f] eqn:Hid.
  - done.
  - left. eexists _, _. eapply foreign_id; eauto; by rewrite Hid.
  - left. eexists _, _. eapply foreign_id; eauto; by rewrite Hid.
  - assert (Hlk : dict_lookup "requestId" d = Some (JStr rid)).
    { unfold dict_get in Hid. by destruct (dict_lookup "requestId" d); simplify_eq/=. }
    assert (Hne : rid ≠ "") by (intros ->; done).
    destruct (consumer σ rid) as [q|] eqn:Hq.
    + right. by exists s, d, rid, q.
    + left. eexists _, _. unfold consumer in Hq.
      destruct (listeners σ !! rid) eqn:Hl; [done|].
      by eapply unknown_id.
  - left. eexists _, _. eapply unhashable_id; eauto; by rewrite Hid.
  - left. eexists _, _. eapply unhashable_id; eauto; by rewrite Hid.
Qed.

Lemma _listen_received σ c msg k script :
  connection σ ≠ None → running σ = true →
  _listen (mkTurn c (Received msg) k :: script) σ =
    (on_message msg;; _listen script) σ.
Proof.
  intros Hc Hr. cbn [_listen]. mrun. rewrite Hr.
  unfold iteration. mrun. rewrite Hr, bool_decide_eq_false_2 by done.
  cbn [turn_recv]. mrun. reflexivity.
Qed.

(** C8: a frame that cannot be decoded (bytes that are not UTF-8, text that
    is not JSON), that has no correlation id (JSON that is not an object, an
    object whose [requestId] is missing or falsy) or whose correlation id has
    no registered queue (a string without a queue, a number, [true], a list
    or an object) is dropped with one warning or error line in the log, also
    when the decoding or the lookup raised inside the router:
    [_route_message] returns normally and leaves the registry, the queues and
    everything else as they were; the receive loop goes on with its next
    turn.  By [unroutable_or_consumed] these are all the frames that have no
    queue to go to. *)
Theorem unroutable_frame_logged_and_dropped (msg : message) (σ : state)
    (lvl : level) (txt : string) :
  unroutable σ msg lvl txt →
  lvl ≠ Info ∧
  _route_message msg σ = (Ok tt, emit (Log lvl txt) σ) ∧
  listeners (emit (Log lvl txt) σ) = listeners σ ∧
  heap (emit (Log lvl txt) σ) = heap σ ∧
  (connection σ ≠ None → running σ = true →
   ∀ c k script,
     _listen (mkTurn c (Received msg) k :: script) σ =
     _listen script
       (set_current_retry 0
          (emit (Log lvl txt) (emit (Log Info "Received message") σ)))).
Proof.
  intros Hu. split; [by destruct Hu|].
  split; [by apply _route_message_unroutable|].
  split; [done|]. split; [done|].
  intros Hc Hr c k script. rewrite _listen_received by done.
  unfold on_message, bind, log, modify.
  rewrite (_route_message_unroutable msg _ lvl txt) by by apply unroutable_emit.
  reflexivity.
Qed.

Lemma dict_set_same k v d : dict_lookup k d = Some v → dict_set k v d = d.
Proof.
  induction d as [|[k' v'] d IH]; simpl; [done|].
  destruct (String.eqb k k'); [by intros [= ->]|].
  intros Hd. by rewrite IH.
Qed.

Lemma put_nowait_full q x σ Q :
  heap σ !! q = Some Q → full Q = true → put_nowait q x σ = (Raise QueueFull, σ).
Proof. intros Hq Hf. unfold put_nowait. by rewrite Hq, Hf. Qed.

Lemma put_nowait_ok q x σ Q :
  heap σ !! q = Some Q → full Q = false →
  put_nowait q x σ =
    (Ok tt, set_heap (<[q := mkQueue (maxsize Q) (items Q ++ [x])]> (heap σ)) σ).
Proof. intros Hq Hf. unfold put_nowait. by rewrite Hq, Hf. Qed.

Lemma _route_message_registered msg σ s d rid q Q :
  wire_text msg = Some s → json_loads s = Some (JObj d) →
  dict_lookup "requestId" d = Some (JStr rid) → rid ≠ "" →
  listeners σ !! rid = Some q → heap σ !! q = Some Q →
  _route_message msg σ =
    (Ok tt, if full Q then emit (Log Error "Queue full for request_id") σ
            else after_delivery rid q Q d σ).
Proof.
  intros Ht Hj Hid Hne Hl Hq.
  unfold _route_message, try_except.
  rewrite (wire_text_bind _ _ _ _ Ht), Hj.
  assert (Hid' : dict_get d "requestId" JNull = JStr rid)
    by (unfold dict_get; by rewrite Hid).
  rewrite !Hid'. cbn [truthy].
  destruct (String.eqb_spec rid "") as [->|_]; [done|]. cbn [negb].
  mrun. rewrite Hl.
  assert (Hd : match dict_lookup "response" d with
               | Some response => dict_set "response" response d
               | None => d
               end = d).
  { destruct (dict_lookup "response" d) eqn:E; [by apply dict_set_same|done]. }
  rewrite Hd. unfold after_delivery, try_except, bind.
  destruct (full Q) eqn:Hf.
  - by rewrite (put_nowait_full _ _ _ _ Hq Hf).
  - rewrite (put_nowait_ok _ _ _ _ Hq Hf).
    cbn [log modify ret andb].
    destruct (truthy (dict_get d "isStreamEnd" (JBool false))); [|done].
    cbn [log modify]. by erewrite unregister_listener_present by exact Hl.
Qed.

(** A queue made by [asyncio.Queue()] is never full. *)
Lemma unbounded_never_full Q : maxsize Q = 0 → full Q = false.
Proof. unfold full. by intros ->. Qed.

Lemma heap_after_delivery rid q Q d σ :
  heap σ !! q = Some Q →
  heap (after_delivery rid q Q d σ) !! q =
    Some (mkQueue (maxsize Q) (items Q ++ [Some d])).
Proof.
  intros Hq. unfold after_delivery.
  destruct (truthy _); cbn; apply list_lookup_insert_eq; by eapply lookup_lt_Some.
Qed.

Lemma listeners_after_delivery rid q Q d σ :
  truthy (dict_get d "isStreamEnd" (JBool false)) = false →
  listeners (after_delivery rid q Q d σ) = listeners σ.
Proof. intros He. unfold after_delivery. by rewrite He. Qed.

(** With nobody reading, every routed frame makes the channel one longer. *)
Lemma listener_routes_backlog msg s d rid n : ∀ σ q Q,
  wire_text msg = Some s → json_loads s = Some (JObj d) →
  dict_lookup "requestId" d = Some (JStr rid) → rid ≠ "" →
  truthy (dict_get d "isStreamEnd" (JBool false)) = false →
  listeners σ !! rid = Some q → heap σ !! q = Some Q → maxsize Q = 0 →
  backlog rid (listener_routes (replicate n msg) σ).2 = (length (items Q) + n)%nat.
Proof.
  induction n as [|n IH]; intros σ q Q Ht Hj Hid Hne He Hl Hq Hm.
  - cbn. unfold backlog. rewrite Hl, Hq. lia.
  - cbn [replicate listener_routes]. unfold on_message. mrun.
    unfold bind at 1.
    rewrite (_route_message_registered msg _ s d rid q Q) by done.
    rewrite (unbounded_never_full Q Hm). mrun.
    rewrite (IH _ q (mkQueue (maxsize Q) (items Q ++ [Some d]))); try done.
    + cbn. rewrite length_app. cbn. lia.
    + cbn [listeners set_current_retry]. rewrite listeners_after_delivery by done.
      exact Hl.
    + cbn [heap set_current_retry]. by apply heap_after_delivery.
Qed.

(** C4, as the code has it: a channel made by registration is an
    [asyncio.Queue()] with [maxsize = 0], that is an unbounded FIFO.  It is
    never full, so a frame routed to a registered id is always appended at
    the tail of its channel and the reader takes elements from the head.  The
    router's put does not block: on a full channel it would drop the frame
    and log an error, which no channel made by registration can be. *)
Theorem channels_unbounded_fifo (rid : string) (σ : state) :
  (listeners σ !! rid = None →
   ∃ q σ', register_listener rid σ = (Ok q, σ') ∧
           listeners σ' !! rid = Some q ∧
           heap σ' !! q = Some (mkQueue 0 []) ∧
           ∀ pending, full (mkQueue 0 pending) = false) ∧
  (∀ msg s d q Q,
     wire_text msg = Some s → json_loads s = Some (JObj d) →
     dict_lookup "requestId" d = Some (JStr rid) → rid ≠ "" →
     listeners σ !! rid = Some q → heap σ !! q = Some Q →
     (maxsize Q = 0 →
      _route_message msg σ = (Ok tt, after_delivery rid q Q d σ) ∧
      heap (after_delivery rid q Q d σ) !! q =
        Some (mkQueue 0 (items Q ++ [Some d]))) ∧
     (full Q = true →
      _route_message msg σ =
        (Ok tt, emit (Log Error "Queue full for request_id") σ))) ∧
  (∀ q n x rest,
     heap σ !! q = Some (mkQueue n (x :: rest)) →
     ∃ σ', take q σ = Some (x, σ') ∧ heap σ' !! q = Some (mkQueue n rest)).
Proof.
  split; [|split].
  - intros Hnone. eexists _, _.
    split; [by apply register_listener_new|].
    split; [cbn; apply lookup_insert_eq|].
    split; [|done].
    cbn. rewrite lookup_app_r by done. by rewrite Nat.sub_diag.
  - intros msg s d q Q Ht Hj Hid Hne Hl Hq. split.
    + intros Hm.
      rewrite (_route_message_registered msg _ s d rid q Q) by done.
      rewrite (unbounded_never_full Q Hm).
      split; [done|]. rewrite <- Hm. by apply heap_after_delivery.
    + intros Hf.
      rewrite (_route_message_registered msg _ s d rid q Q) by done.
      by rewrite Hf.
  - intros q n x rest Hq. unfold take. rewrite Hq. eexists. split; [done|].
    cbn. apply list_lookup_insert_eq. by eapply lookup_lt_Some.
Qed.

End Router.

Lemma channels_unbounded_fifo_witness :
  ∃ q σ', register_listener "r2" serving = (Ok q, σ') ∧
          listeners σ' !! "r2" = Some q ∧
          heap σ' !! q = Some (mkQueue 0 []) ∧
          ∀ pending, full (mkQueue 0 pending) = false.
Proof.
  apply (proj1 (channels_unbounded_fifo (H := table_codec) "r2" serving)).
  reflexivity.
Defined.

(** C4 as stated fails: the channel that registration creates for ["r2"] has
    no capacity bound; with nobody reading it, [n] routed frames leave [n]
    elements waiting, for every [n]. *)
Lemma registered_channel_not_bounded :
  ¬ ∃ cap : nat, ∀ n : nat, (backlog "r2" (flood n) ≤ cap)%nat.
Proof.
  intros [cap Hcap]. specialize (Hcap (S cap)).
  unfold flood in Hcap.
  erewrite (listener_routes_backlog (H := table_codec) _ _ _ "r2") in Hcap;
    [| reflexivity | reflexivity | reflexivity | discriminate | reflexivity
     | reflexivity | reflexivity | reflexivity ].
  cbn in Hcap. lia.
Qed.

Lemma unroutable_frame_logged_and_dropped_witness :
  _route_message (H := table_codec)
    (Text (render (unary_success "r1" "hi" 3))) serving =
  (Ok tt, emit (Log Error "No queue found for request_id") serving) ∧
  _route_message (H := table_codec) (Text (render (JArr [JNum 1]))) serving =
  (Ok tt, emit (Log Error "Error processing message") serving) ∧
  _route_message (H := table_codec)
    (Binary (render (JObj [("code", JNum 200)]))) serving =
  (Ok tt, emit (Log Warn "Received message without request ID") serving) ∧
  _route_message (H := table_codec) (Text "not json") serving =
  (Ok tt, emit (Log Error "JSON decode error") serving).
Proof.
  split; [|split; [|split]].
  - apply (unroutable_frame_logged_and_dropped (H := table_codec)
             (Text (render (unary_success "r1" "hi" 3))) serving
             Error "No queue found for request_id").
    eapply (unknown_id (H := table_codec)) with (rid := "r1"); try reflexivity.
    discriminate.
  - apply (unroutable_frame_logged_and_dropped (H := table_codec)
             (Text (render (JArr [JNum 1]))) serving
             Error "Error processing message").
    eapply (not_an_object (H := table_codec)); reflexivity.
  - apply (unroutable_frame_logged_and_dropped (H := table_codec)
             (Binary (render (JObj [("code", JNum 200)]))) serving
             Warn "Received message without request ID").
    eapply (missing_id (H := table_codec)); reflexivity.
  - apply (unroutable_frame_logged_and_dropped (H := table_codec)
             (Text "not json") serving Error "JSON decode error").
    eapply (undecodable_json (H := table_codec)); reflexivity.
Defined.

(** ** Wallet authentication *)

Section Authentication.
Context `{Codec}.

Lemma unregister_listener_gone rid σ :
  ∃ σ', unregister_listener rid σ = (Ok tt, σ') ∧
        listeners σ' !! rid = None ∧ untouched σ σ'.
Proof.
  destruct (listeners σ !! rid) as [q|] eqn:Hl.
  - eexists. split; [by eapply unregister_listener_present|].
    split; [cbn; apply lookup_delete_eq|done].
  - exists σ. split; [by apply unregister_listener_absent|done].
Qed.

Lemma register_listener_returns rid σ :
  ∃ q σ', register_listener rid σ = (Ok q, σ') ∧ untouched σ σ'.
Proof.
  destruct (listeners σ !! rid) as [q|] eqn:Hl.
  - eexists _, _. split; [by apply register_listener_existing|done].
  - eexists _, _. split; [by apply register_listener_new|done].
Qed.

(** C10: [authenticate_wallet] always returns a boolean and never raises.
    The boolean is True exactly when its queue delivered, within the timeout,
    a non-empty response whose [code] is 200, and then the address is appended
    to [authenticated_addresses]; in every other case (another code, [None],
    a timeout) it is False and the list is as before.  On every exit the
    listener of its request id is gone from the registry. *)
Theorem authenticate_wallet_total (wallet_address : string) (io : auth_io)
    (σ : state) :
  ∃ b σ',
    authenticate_wallet wallet_address io σ = (Ok b, σ') ∧
    listeners σ' !! auth_uuid io = None ∧
    b = match auth_delivery wallet_address io σ with
        | Some response => is_success response
        | None => false
        end ∧
    (b = true ↔
     ∃ d, auth_delivery wallet_address io σ = Some (Some d) ∧ d ≠ [] ∧
          py_eq_int (dict_get d "code" JNull) 200 = true) ∧
    authenticated_addresses σ' =
      (if b then authenticated_addresses σ ++ [wallet_address]
       else authenticated_addresses σ).
Proof.
  unfold authenticate_wallet, auth_delivery, try_except. cbv zeta. mrun.
  set (σ0 := emit (Log Info "Authenticating wallet") σ).
  set (msg := json_dumps (auth_request wallet_address (auth_uuid io))).
  destruct (send_returns msg (auth_uuid io) (auth_send io) σ0) as (b0 & σ1 & Hs).
  pose proof (keeps_send untouched msg (auth_uuid io) (auth_send io) σ0) as K1.
  rewrite Hs in K1. cbn [snd] in K1.
  unfold bind at 1. rewrite Hs. cbn [snd].
  destruct (register_listener_returns (auth_uuid io) σ1) as (q & σ2 & Hr & K2).
  unfold bind at 1. rewrite Hr.
  destruct (await_get_returns q (auth_arrivals io) σ2) as (r & σ3 & Ha).
  pose proof (keeps_await_get untouched q (auth_arrivals io) σ2) as K3.
  rewrite Ha in K3. cbn [snd] in K3.
  unfold try_finally, bind. rewrite Ha.
  assert (Hadd : authenticated_addresses σ3 = authenticated_addresses σ).
  { destruct K1 as [E1 _], K2 as [E2 _], K3 as [E3 _]. by rewrite E3, E2, E1. }
  destruct r as [response|].
  - destruct (is_success response) eqn:Hok.
    + cbn [log modify ret].
      match goal with |- context [unregister_listener ?r ?st] =>
        destruct (unregister_listener_gone r st) as (σ4 & Hu & Hgone & K4) end.
      rewrite Hu. exists true, σ4. split; [done|]. split; [done|].
      split; [done|]. split.
      * split; [intros _|done].
        destruct response as [d|]; [|done]. exists d. split; [done|].
        unfold is_success in Hok. apply andb_prop in Hok as [Ht Hc].
        split; [|done]. by destruct d.
      * destruct K4 as [E4 _]. rewrite E4. cbn. by rewrite Hadd.
    + cbn [log modify ret].
      match goal with |- context [unregister_listener ?r ?st] =>
        destruct (unregister_listener_gone r st) as (σ4 & Hu & Hgone & K4) end.
      rewrite Hu. exists false, σ4. split; [done|]. split; [done|].
      split; [done|]. split.
      * split; [done|]. intros (d & [= ->] & Hd & Hc).
        unfold is_success in Hok. rewrite Hc, andb_true_r in Hok.
        by destruct d.
      * destruct K4 as [E4 _]. rewrite E4. cbn. by rewrite Hadd.
  - cbn [log modify ret].
    match goal with |- context [unregister_listener ?r ?st] =>
      destruct (unregister_listener_gone r st) as (σ4 & Hu & Hgone & K4) end.
    rewrite Hu. exists false, σ4. split; [done|]. split; [done|].
    split; [done|]. split.
    + split; [done|]. by intros (d & ? & _).
    + destruct K4 as [E4 _]. rewrite E4. cbn. by rewrite Hadd.
Qed.

End Authentication.

(** ** The unary path *)

Section Unary.
Context `{Codec}.

Lemma take_head q n x rest σ :
  heap σ !! q = Some (mkQueue n (x :: rest)) →
  take q σ = Some (x, set_heap (<[q := mkQueue n rest]> (heap σ)) σ).
Proof. intros Hq. unfold take. by rewrite Hq. Qed.

Lemma take_empty q n σ : heap σ !! q = Some (mkQueue n []) → take q σ = None.
Proof. intros Hq. unfold take. by rewrite Hq. Qed.

Lemma await_get_head q n x rest arrivals σ :
  heap σ !! q = Some (mkQueue n (x :: rest)) →
  await_get q arrivals σ =
    (Ok (Some x), set_heap (<[q := mkQueue n rest]> (heap σ)) σ).
Proof.
  intros Hq. destruct arrivals; cbn [await_get]; by rewrite (take_head _ _ _ _ _ Hq).
Qed.

Lemma await_get_timeout q n σ :
  heap σ !! q = Some (mkQueue n []) → await_get q [] σ = (Ok None, σ).
Proof. intros Hq. cbn [await_get]. by rewrite (take_empty _ _ _ Hq). Qed.

Lemma await_get_arrival q n m ms σ :
  heap σ !! q = Some (mkQueue n []) →
  await_get q (m :: ms) σ = (on_message m;; await_get q ms) σ.
Proof. intros Hq. cbn [await_get]. by rewrite (take_empty _ _ _ Hq). Qed.

Lemma create_request_new rid σ :
  listeners σ !! rid = None →
  ∃ σ', create_request rid σ = (Ok (length (heap σ)), σ') ∧
        listeners σ' !! rid = Some (length (heap σ)) ∧
        queues σ' !! rid = Some (length (heap σ)) ∧
        heap σ' !! length (heap σ) = Some (mkQueue 0 []).
Proof.
  intros Hnone. unfold create_request, try_except, create_queue. mrun.
  unfold bind at 1. rewrite register_listener_new by done. mrun.
  eexists. split; [done|]. cbn.
  split; [apply lookup_insert_eq|]. split; [apply lookup_insert_eq|].
  rewrite lookup_app_r by done. by rewrite Nat.sub_diag.
Qed.

(** The first arriving frame is a success for [rid], whose queue is empty:
    [wait_for_response] returns it. *)
Lemma wait_for_response_delivered rid q msg s (d : dict) rest σ :
  queues σ !! rid = Some q → listeners σ !! rid = Some q →
  heap σ !! q = Some (mkQueue 0 []) →
  wire_text msg = Some s → json_loads s = Some (JObj d) →
  dict_lookup "requestId" d = Some (JStr rid) → rid ≠ "" →
  is_success (Some d) = true →
  ∃ σ', wait_for_response rid (msg :: rest) σ = (Ok d, σ').
Proof.
  intros Hqs Hl Hq Ht Hj Hid Hne Hok.
  unfold wait_for_response, try_except. mrun. rewrite Hqs.
  unfold bind at 1. rewrite (await_get_arrival _ _ _ _ _ Hq).
  unfold on_message. mrun. unfold bind at 1.
  rewrite (_route_message_registered msg _ s d rid q (mkQueue 0 [])) by done.
  cbn [full maxsize Z.leb Z.compare]. mrun.
  rewrite (await_get_head q 0 (Some d) [] rest); last first.
  { cbn [heap set_current_retry].
    exact (heap_after_delivery rid q (mkQueue 0 []) d
             (emit (Log Info "Received message") σ) Hq). }
  unfold try_finally. rewrite Hok. cbn. by eexists.
Qed.

(** C5: the unary request [rid] is registered and sent, and the first frame to
    arrive is [{requestId: rid, code: 200, response: text, tokens_burned:
    tokens}] (for the scenario of the specification: "r1", "hi", 3):
    [process_request] returns a completion whose message content is [text]
    and whose completion token usage is [tokens]. *)
Theorem unary_success_returns_completion (rid text : string) (tokens : Z)
    (request args model : json) (io : unary_io) (msg : message) (s : string)
    (rest : list message) (σ : state) :
  rid ≠ "" → listeners σ !! rid = None →
  replies (io_send io) = [] →
  io_arrivals io = msg :: rest →
  wire_text msg = Some s → json_loads s = Some (unary_success rid text tokens) →
  py_getitem request "args" = Ok args → py_getitem args "model" = Ok model →
  ∃ c σ',
    process_request rid request io σ = (Ok c, σ') ∧
    message_content c = Some (JStr text) ∧
    completion_tokens c = Some (JNum tokens).
Proof.
  intros Hne Hfresh Hquiet Harr Ht Hj Hargs Hmodel.
  unfold process_request, try_except. mrun.
  destruct (create_request_new rid (emit (Log Info "Processing non-stream request") σ))
    as (σ1 & Hc & Hl1 & Hq1 & Hh1); [done|].
  unfold bind at 1. rewrite Hc.
  set (q := length (heap (emit (Log Info "Processing non-stream request") σ))) in *.
  destruct (send_returns (json_dumps request) rid (io_send io) σ1) as (b & σ2 & Hs).
  pose proof (keeps_send_quiet same_store (json_dumps request) rid (io_send io) Hquiet σ1)
    as (El & _ & Eq & Eh).
  rewrite Hs in El, Eq, Eh. cbn [snd] in El, Eq, Eh.
  unfold bind at 1. rewrite Hs.
  assert (Hq2 : queues σ2 !! rid = Some q) by (by rewrite Eq).
  assert (Hl2 : listeners σ2 !! rid = Some q) by (by rewrite El).
  assert (Hh2 : heap σ2 !! q = Some (mkQueue 0 [])) by (by rewrite Eh).
  destruct (wait_for_response_delivered rid q msg s
              [("requestId", JStr rid); ("code", JNum 200);
               ("response", JStr text); ("tokens_burned", JNum tokens)] rest σ2
              Hq2 Hl2 Hh2 Ht Hj eq_refl Hne eq_refl)
    as (σ3 & Hw).
  unfold bind at 1. rewrite Harr, Hw.
  match goal with |- context [is_success ?r] =>
    change (is_success r) with true end.
  cbv iota. rewrite Hargs. mrun. rewrite Hmodel. mrun.
  eexists _, _. split; [done|]. done.
Qed.

(** A wait that gets nothing from its queue before the timeout raises the
    408 error, after removing the entry of the manager's own [queues]; the
    registry of the [WebSocketManager] is as the wait left it. *)
Lemma wait_for_response_timeout rid q arrivals σ σ1 :
  queues σ !! rid = Some q →
  await_get q arrivals σ = (Ok None, σ1) →
  ∃ σ', wait_for_response rid arrivals σ =
          (Raise (HTTPException 408 (JStr ("Request timeout: " +:+ rid))), σ') ∧
        listeners σ' = listeners σ1 ∧
        queues σ' = delete rid (queues σ1) ∧
        trace σ' = trace σ1 ++
          [Log Error "Timeout waiting for response for request_id";
           Log Error "Error waiting for response"].
Proof.
  intros Hq Ha. unfold wait_for_response, try_except. mrun. rewrite Hq.
  unfold bind at 1. rewrite Ha. unfold try_finally. mrun. cbn.
  eexists. split; [done|]. split; [done|].
  split; [by rewrite delete_delete_eq|].
  cbn [trace set_queues emit]. by rewrite <- app_assoc.
Qed.

(** X25: [handle_request] never returns a response: whatever
    [process_request] did, also when it returned a completion, the [finally]
    of [handle_request] looks up a name that is bound nowhere and raises
    [NameError]. *)
Lemma handle_request_raises_name_error rid request io σ :
  ∃ σ', handle_request rid request io σ =
          (Raise (NameError "background_tasks"), σ').
Proof.
  unfold handle_request, try_finally.
  destruct (process_request rid request io σ) as [r σ1].
  by eexists.
Qed.

End Unary.

Lemma unary_success_returns_completion_witness :
  ∃ c σ',
    process_request (H := table_codec) "r1" (sample_request "r1" false)
      (mkUnaryIo quiet_send [Text (render (unary_success "r1" "hi" 3))] 1700000000)
      serving = (Ok c, σ') ∧
    message_content c = Some (JStr "hi") ∧
    completion_tokens c = Some (JNum 3).
Proof.
  eapply (unary_success_returns_completion (H := table_codec) "r1" "hi" 3
            (sample_request "r1" false) _ _
            (mkUnaryIo quiet_send [Text (render (unary_success "r1" "hi" 3))] 1700000000));
    try reflexivity.
  discriminate.
Defined.

(** C3, on the code: the unary request ["r1"] is registered and sent on a
    live connection and nothing arrives before the timeout.
    [handle_request] does not end in the 408 error but in [NameError]: the
    handler of [process_request] and the [finally] of [handle_request] both
    evaluate [background_tasks], which neither method binds.  No cleanup is
    added, [unregister_listener] never runs, and the registry still holds
    ["r1"]; only the manager's own [queues] entry is gone. *)
Theorem unary_timeout_keeps_listener :
  let run := handle_request (H := table_codec) "r1" (sample_request "r1" false)
               (mkUnaryIo quiet_send [] 1700000000) serving in
  run.1 = Raise (NameError "background_tasks") ∧
  listeners run.2 !! "r1" = Some 0%nat ∧
  queues run.2 !! "r1" = None ∧
  scheduled run.2 = [] ∧
  trace run.2 =
    [Log Info "Processing non-stream request";
     Log Info "Creating queue for request_id";
     Registered "r1";
     Log Info "Registered new listener for request_id";
     Sent (render (sample_request "r1" false)) "r1";
     Log Info "Sent message";
     Log Error "Timeout waiting for response for request_id";
     Log Error "Error waiting for response";
     Log Error "Error processing request"].
Proof. vm_compute. done. Qed.

(** ** Registration and sending, in order *)

Section Ordering.
Context `{Codec}.

Lemma extends_set_queues q σ : extends σ (set_queues q σ).
Proof. exists []. by rewrite app_nil_r. Qed.

Lemma extends_set_scheduled l σ : extends σ (set_scheduled l σ).
Proof. exists []. by rewrite app_nil_r. Qed.

Lemma wait_for_response_extends rid arrivals :
  keeps extends (wait_for_response rid arrivals).
Proof.
  unfold wait_for_response.
  repeat first [ apply keeps_await_get; apply _
               | apply keeps_modify; intros ?; apply extends_set_queues
               | keeps_step ].
Qed.

Lemma name_extends locals globals x : keeps extends (name locals globals x).
Proof. unfold name. repeat keeps_step. Qed.

Lemma try_except_bind_ok {A B} (m : M A) (k : A → M B) h σ a σ1 :
  m σ = (Ok a, σ1) → try_except (bind m k) h σ = try_except (k a) h σ1.
Proof. intros Hm. unfold try_except, bind. by rewrite Hm. Qed.

Lemma create_queue_trace rid σ :
  listeners σ !! rid = None →
  ∃ q σ', create_queue rid σ = (Ok q, σ') ∧
          trace σ' = trace σ ++ [Log Info "Creating queue for request_id";
                                 Registered rid;
                                 Log Info "Registered new listener for request_id"].
Proof.
  intros Hnone. unfold create_queue. mrun.
  unfold bind at 1. rewrite register_listener_new by done. mrun.
  eexists _, _. split; [done|]. cbn. by rewrite <- !app_assoc.
Qed.

Lemma create_request_trace rid σ :
  listeners σ !! rid = None →
  ∃ q σ', create_request rid σ = (Ok q, σ') ∧
          trace σ' = trace σ ++ [Log Info "Creating queue for request_id";
                                 Registered rid;
                                 Log Info "Registered new listener for request_id"].
Proof.
  intros Hnone. destruct (create_queue_trace rid σ Hnone) as (q & σ' & Hc & Ht).
  exists q, σ'. split; [|done]. unfold create_request, try_except. by rewrite Hc.
Qed.

Lemma create_stream_trace rid σ :
  listeners σ !! rid = None →
  ∃ q σ', create_stream rid σ = (Ok q, σ') ∧
          trace σ' = trace σ ++ [Log Info "Creating queue for request_id";
                                 Registered rid;
                                 Log Info "Registered new listener for request_id"].
Proof.
  intros Hnone. destruct (create_queue_trace rid σ Hnone) as (q & σ' & Hc & Ht).
  exists q, σ'. split; [|done]. unfold create_stream, try_except. by rewrite Hc.
Qed.

(** With a fresh id, the first things [process_request] does are to create
    the queue and to register it; the frame is sent among what follows. *)
Lemma process_request_registers_first rid request io σ :
  listeners σ !! rid = None →
  ∃ more,
    trace (process_request rid request io σ).2 =
      trace σ ++
      [Log Info "Processing non-stream request";
       Log Info "Creating queue for request_id";
       Registered rid;
       Log Info "Registered new listener for request_id"] ++ more.
Proof.
  intros Hfresh. unfold process_request. mrun.
  destruct (create_request_trace rid (emit (Log Info "Processing non-stream request") σ))
    as (q & σ1 & Hc & Ht); [done|].
  rewrite (try_except_bind_ok _ _ _ _ _ _ Hc).
  match goal with |- context [try_except ?k ?h σ1] =>
    assert (K : keeps extends (try_except k h)) end.
  { repeat first [ apply keeps_send; apply _ | apply wait_for_response_extends
                 | apply name_extends
                 | apply keeps_modify; intros ?; apply extends_set_scheduled
                 | keeps_step ]. }
  destruct (K σ1) as [more Hmore]. exists more.
  rewrite Hmore, Ht. cbn [trace emit]. by rewrite <- !app_assoc.
Qed.

(** The same for [process_stream]. *)
Lemma process_stream_registers_first rid request io σ :
  listeners σ !! rid = None →
  ∃ more,
    trace (process_stream rid request io σ).2 =
      trace σ ++
      [Log Info "Processing stream request";
       Log Info "Creating queue for request_id";
       Registered rid;
       Log Info "Registered new listener for request_id"] ++ more.
Proof.
  intros Hfresh. unfold process_stream. mrun.
  destruct (create_stream_trace rid (emit (Log Info "Processing stream request") σ))
    as (q & σ1 & Hc & Ht); [done|].
  rewrite (try_except_bind_ok _ _ _ _ _ _ Hc).
  match goal with |- context [try_except ?k ?h σ1] =>
    assert (K : keeps extends (try_except k h)) end.
  { unfold stream_response.
    repeat first [ apply keeps_send; apply _ | keeps_step ]. }
  destruct (K σ1) as [more Hmore]. exists more.
  rewrite Hmore, Ht. cbn [trace emit]. by rewrite <- !app_assoc.
Qed.

Lemma registered_first_before_sent rid l0 l1 l3 more :
  registered_before_sent rid
    ([Log Info l0; Log Info l1; Registered rid; Log Info l3] ++ more).
Proof.
  intros i msg Hi. exists 2%nat. split; [|done].
  destruct i as [|[|[|[|i]]]]; try done. lia.
Qed.

Lemma send_live msg rid io σ :
  connection σ ≠ None → running σ = true → write_ok io = true →
  ∃ σ' more, send msg rid io σ = (Ok true, σ') ∧
             trace σ' = trace σ ++ [Sent msg rid] ++ more.
Proof.
  intros Hc Hr Hw. unfold send, try_except. mrun.
  rewrite Hr, bool_decide_eq_false_2 by done. mrun. rewrite Hw. mrun.
  destruct (listener_routes_returns (replies io) (emit (Sent msg rid) σ)) as [σ1 Hl].
  destruct (keeps_listener_routes extends (replies io) (emit (Sent msg rid) σ))
    as [more Hmore].
  rewrite Hl in Hmore. cbn [snd] in Hmore.
  unfold bind at 1. rewrite Hl. mrun.
  eexists _, (more ++ [_]). split; [done|].
  cbn [trace emit] in *. rewrite Hmore. by rewrite <- !app_assoc.
Qed.

(** [authenticate_wallet] on a live connection writes its frame first: what it
    does to the registry comes after. *)
Lemma authenticate_wallet_sends_first wallet_address io σ :
  connection σ ≠ None → running σ = true → write_ok (auth_send io) = true →
  ∃ more,
    trace (authenticate_wallet wallet_address io σ).2 =
      trace σ ++
      [Log Info "Authenticating wallet";
       Sent (json_dumps (auth_request wallet_address (auth_uuid io))) (auth_uuid io)]
      ++ more.
Proof.
  intros Hc Hr Hw. unfold authenticate_wallet. cbv zeta.
  rewrite (try_except_bind_ok _ _ _ _ tt
             (emit (Log Info "Authenticating wallet") σ)) by done.
  destruct (send_live (json_dumps (auth_request wallet_address (auth_uuid io)))
              (auth_uuid io) (auth_send io)
              (emit (Log Info "Authenticating wallet") σ))
    as (σ1 & m1 & Hs & Ht); [done..|].
  rewrite (try_except_bind_ok _ _ _ _ _ _ Hs).
  match goal with |- context [try_except ?k ?h σ1] =>
    assert (K : keeps extends (try_except k h)) end.
  { repeat first [ apply keeps_register_listener; apply _
                 | apply keeps_unregister_listener; apply _
                 | apply keeps_await_get; apply _
                 | (apply keeps_modify; intros ?; exists []; by rewrite app_nil_r)
                 | keeps_step ]. }
  destruct (K σ1) as [more Hmore]. exists (m1 ++ more).
  rewrite Hmore, Ht. cbn [trace emit]. by rewrite <- !app_assoc.
Qed.

End Ordering.

(** C1, on the code: [process_request] and [process_stream] register the
    correlation id before they send, but [authenticate_wallet] sends its
    frame first and registers the listener afterwards.  Here the upstream
    answers ["u1"] with code 200 while [send] is still suspended: the router
    finds no queue and drops the answer, the listener is registered only
    then, and the authentication times out. *)
Theorem wallet_frame_sent_before_registration :
  let run := authenticate_wallet (H := table_codec) "0xabc"
               (mkAuthIo "u1"
                  (mkSendIo true true true [Text (render (unary_success "u1" "ok" 0))])
                  [])
               serving in
  run.1 = Ok false ∧
  trace run.2 =
    [Log Info "Authenticating wallet";
     Sent (render (auth_request "0xabc" "u1")) "u1";
     Log Info "Received message";
     Log Error "No queue found for request_id";
     Log Info "Sent message";
     Registered "u1";
     Log Info "Registered new listener for request_id";
     Log Error "Authentication timeout for wallet";
     Unregistered "u1";
     Log Info "Unregistered listener for request_id"] ∧
  ¬ registered_before_sent "u1" (trace run.2).
Proof.
  split; [by vm_compute|]. split; [by vm_compute|].
  intros Hord.
  destruct (Hord 1%nat (render (auth_request "0xabc" "u1"))) as (j & Hj & Hreg).
  - by vm_compute.
  - assert (j = 0%nat) as -> by lia. by vm_compute in Hreg.
Qed.

(** ** The stream path *)

Section Stream.
Context `{Codec}.









End Stream.



(** ** The receive loop *)

Section Listener.
Context `{Codec}.

Lemma leave_eq σ :
  leave σ = (Ok Stopped,
             set_running false (emit (Log Info "WebSocket message listener stopped") σ)).
Proof. reflexivity. Qed.

Lemma _listen_not_running script σ :
  running σ = false → _listen script σ = leave σ.
Proof. intros Hr. destruct script; cbn [_listen]; mrun; by rewrite Hr. Qed.

(** A closed connection ends the loop at once: [close()] clears [running],
    and the [continue] that follows meets a false loop condition. *)
Lemma _listen_connection_closed σ c r k script :
  r = ConnectionClosedOK ∨ r = ConnectionClosedError →
  connection σ ≠ None → running σ = true →
  ∃ σ', _listen (mkTurn c r k :: script) σ = (Ok Stopped, σ') ∧
        running σ' = false ∧ connection σ' = None ∧
        current_retry σ' = current_retry σ ∧
        trace σ' = trace σ ++ closing k.
Proof.
  intros Hclosed Hc Hr. cbn [_listen]. mrun. rewrite Hr.
  unfold iteration. mrun. rewrite Hr, bool_decide_eq_false_2 by done. mrun.
  cbn [turn_recv turn_close_ok].
  assert (Hgoal : ∃ σ',
            bind (bind (log Warn "WebSocket connection closed")
                    (λ _, bind (close k) (λ _, ret Continue)))
              (λ c0, match c0 with Continue => _listen script | Break => leave end) σ
            = (Ok Stopped, σ') ∧
            running σ' = false ∧ connection σ' = None ∧
            current_retry σ' = current_retry σ ∧ trace σ' = trace σ ++ closing k).
  { mrun. unfold close. mrun. cbn [connection emit].
    destruct (connection σ) as [sock|] eqn:Hconn; [|done].
    destruct k; mrun; rewrite _listen_not_running by done; rewrite leave_eq;
      eexists; (split; [reflexivity|]); cbn; rewrite <- ?app_assoc; done. }
  destruct Hclosed as [-> | ->]; exact Hgoal.
Qed.

(** While the handshake fails the loop tries again after every delay and
    counts nothing: after [n] failed attempts it is still alive, with the
    retry counter where it was. *)
Lemma _listen_connect_failing n : ∀ σ r k,
  connection σ = None → running σ = true →
  ∃ σ', _listen (replicate n (mkTurn false r k)) σ = (Ok Awaiting, σ') ∧
        running σ' = true ∧ connection σ' = None ∧
        current_retry σ' = current_retry σ ∧
        trace σ' = trace σ ++ mjoin (replicate n failed_attempt).
Proof.
  induction n as [|n IH]; intros σ r k Hc Hr.
  - cbn [replicate _listen]. mrun. rewrite Hr. exists σ.
    cbn. by rewrite app_nil_r.
  - cbn [replicate _listen]. mrun. rewrite Hr.
    unfold iteration. mrun. rewrite Hc, bool_decide_eq_true_2 by done.
    cbn [orb turn_connect_ok]. unfold connect. mrun.
    match goal with |- context [_listen _ ?st] =>
      destruct (IH st r k) as (σ' & Hl & Hr' & Hc' & Hn' & Ht'); [done..|] end.
    exists σ'. rewrite Hl. split; [done|]. split; [done|]. split; [done|].
    split; [done|]. rewrite Ht'. cbn. by rewrite <- !app_assoc.
Qed.

(** C2, on the code: a closed connection makes [_listen] stop at once,
    with its retry budget untouched and without a single reconnection
    attempt, whatever the network would do next; and as long as [connect()]
    fails the loop retries after every delay without counting, so it goes on
    past any number of attempts. *)
Theorem listen_stops_on_close_and_retries_unbounded :
  (∀ σ c r k script,
     r = ConnectionClosedOK ∨ r = ConnectionClosedError →
     connection σ ≠ None → running σ = true →
     ∃ σ', _listen (mkTurn c r k :: script) σ = (Ok Stopped, σ') ∧
           running σ' = false ∧ connection σ' = None ∧
           current_retry σ' = current_retry σ ∧
           trace σ' = trace σ ++ closing k) ∧
  (∀ n σ r k,
     connection σ = None → running σ = true →
     ∃ σ', _listen (replicate n (mkTurn false r k)) σ = (Ok Awaiting, σ') ∧
           running σ' = true ∧ connection σ' = None ∧
           current_retry σ' = current_retry σ ∧
           trace σ' = trace σ ++ mjoin (replicate n failed_attempt)).
Proof.
  split.
  - intros. by apply _listen_connection_closed.
  - intros. by apply _listen_connect_failing.
Qed.

End Listener.

Lemma listen_stops_on_close_and_retries_unbounded_witness :
  ∃ σ', _listen (H := table_codec)
          [mkTurn true ConnectionClosedOK true;
           mkTurn true (Received (Text (render (stream_end "r2")))) true] serving
        = (Ok Stopped, σ') ∧
        running σ' = false ∧ connection σ' = None ∧
        current_retry σ' = current_retry serving ∧
        trace σ' = trace serving ++ closing true.
Proof.
  apply (proj1 (listen_stops_on_close_and_retries_unbounded (H := table_codec))
           serving true ConnectionClosedOK true).
  - by left.
  - discriminate.
  - reflexivity.
Defined.

(** ** What the router never does *)

Global Instance passive_preorder : PreOrder passive.
Proof.
  split.
  - intros σ. split; try done.
    + by right.
    + intros q [n l] Hq. exists []. by rewrite app_nil_r.
    + exists []. by rewrite app_nil_r.
  - intros σ1 σ2 σ3 P1 P2.
    destruct P1 as [Hc1 Hr1 Hm1 Hs1 Hl1 Hn1 Hh1 Ht1].
    destruct P2 as [Hc2 Hr2 Hm2 Hs2 Hl2 Hn2 Hh2 Ht2].
    split; try congruence.
    + by etrans.
    + intros rid. destruct (Hl2 rid) as [-> | ->]; [by left|apply Hl1].
    + intros q Q Hq. destruct (Hh1 q Q Hq) as [e1 He1].
      destruct (Hh2 q _ He1) as [e2 He2]. exists (e1 ++ e2).
      rewrite He2. cbn. by rewrite app_assoc.
    + destruct Ht1 as (a & Ha & Qa), Ht2 as (b & Hb & Qb). exists (a ++ b).
      split; [by rewrite Hb, Ha, app_assoc|].
      by rewrite forallb_app, Qa, Qb.
Qed.

Section Passive.
Context `{Codec}.

Lemma passive_refl_heap σ q Q :
  heap σ !! q = Some Q →
  ∃ extra, heap σ !! q = Some (mkQueue (maxsize Q) (items Q ++ extra)).
Proof. destruct Q as [n l]. intros Hq. exists []. by rewrite app_nil_r. Qed.

Lemma passive_emit e σ : quiet e = true → passive σ (emit e σ).
Proof.
  intros He. split; try done.
  - by right.
  - intros q Q Hq. exact (passive_refl_heap σ q Q Hq).
  - exists [e]. split; [done|]. cbn. by rewrite He.
Qed.

Lemma passive_current_retry n σ : passive σ (set_current_retry n σ).
Proof.
  split; try done.
  - by right.
  - intros q Q Hq. exact (passive_refl_heap σ q Q Hq).
  - exists []. by rewrite app_nil_r.
Qed.

Lemma passive_forget rid σ :
  passive σ (emit (Unregistered rid) (set_listeners (delete rid (listeners σ)) σ)).
Proof.
  split; try done.
  - intros rid'. cbn. destruct (decide (rid = rid')) as [->|Hne].
    + left. apply lookup_delete_eq.
    + right. by apply lookup_delete_ne.
  - intros q Q Hq. exact (passive_refl_heap σ q Q Hq).
  - by exists [Unregistered rid].
Qed.

Lemma passive_put_nowait q x : keeps passive (put_nowait q x).
Proof.
  intros σ. unfold put_nowait.
  destruct (heap σ !! q) as [Q|] eqn:Hq; [|reflexivity].
  destruct (full Q); [reflexivity|]. cbn [snd].
  assert (Hlt : (q < length (heap σ))%nat) by by eapply lookup_lt_Some.
  split; try done.
  - by right.
  - cbn. by rewrite length_insert.
  - intros q' Q' Hq'. cbn [heap set_heap]. destruct (decide (q = q')) as [<-|Hne].
    + rewrite list_lookup_insert_eq by done. exists [x].
      pose proof (eq_trans (eq_sym Hq) Hq') as E. by injection E as ->.
    + rewrite list_lookup_insert_ne by done. exact (passive_refl_heap σ q' Q' Hq').
  - exists []. by rewrite app_nil_r.
Qed.

Lemma passive_log lvl msg : keeps passive (log lvl msg).
Proof. intros σ. by apply passive_emit. Qed.

Lemma passive_unregister_listener rid : keeps passive (unregister_listener rid).
Proof.
  unfold unregister_listener.
  repeat first [ apply passive_log | keeps_step ].
  apply keeps_modify. intros σ. apply passive_forget.
Qed.

Lemma passive_route_message msg : keeps passive (_route_message msg).
Proof.
  unfold _route_message. cbv zeta.
  repeat first [ apply passive_log | apply passive_put_nowait
               | apply passive_unregister_listener | keeps_step ].
Qed.

Lemma passive_on_message msg : keeps passive (on_message msg).
Proof.
  unfold on_message.
  repeat first [ apply passive_log | apply passive_route_message | keeps_step ].
  apply keeps_modify. intros σ. apply passive_current_retry.
Qed.

Lemma passive_listener_routes ms : keeps passive (listener_routes ms).
Proof.
  induction ms as [|m ms IH]; cbn [listener_routes].
  - keeps_step.
  - keeps_step; [apply passive_on_message | done].
Qed.

End Passive.

Section RouterMore.
Context `{Codec}.

(** X1: whatever frames the listener task receives and routes, it returns
    normally and is [passive]: socket, running flag and the managers' maps
    stay as they are, no registry entry is added or redirected, queued
    elements are never removed or reordered, and the trace only gets log
    lines and [Unregistered] events. *)
Theorem routing_is_passive (ms : list message) (σ : state) :
  ∃ σ', listener_routes ms σ = (Ok tt, σ') ∧ passive σ σ'.
Proof.
  destruct (listener_routes_returns ms σ) as [σ' Hl]. exists σ'.
  split; [done|]. pose proof (passive_listener_routes ms σ) as P.
  by rewrite Hl in P.
Qed.

Lemma heap_after_delivery_other rid q q' Q d σ :
  q ≠ q' → heap (after_delivery rid q Q d σ) !! q' = heap σ !! q'.
Proof.
  intros Hne. unfold after_delivery.
  destruct (truthy _); cbn; by apply list_lookup_insert_ne.
Qed.

(** X2: a frame for a registered id whose channel has room reaches the tail
    of that channel and no other queue changes. *)
Theorem delivery_reaches_only_its_channel (msg : message) (s : string)
    (d : dict) (rid : string) (q : qref) (Q : Queue) (σ : state) :
  wire_text msg = Some s → json_loads s = Some (JObj d) →
  dict_lookup "requestId" d = Some (JStr rid) → rid ≠ "" →
  listeners σ !! rid = Some q → heap σ !! q = Some Q → full Q = false →
  ∃ σ', _route_message msg σ = (Ok tt, σ') ∧
        heap σ' !! q = Some (mkQueue (maxsize Q) (items Q ++ [Some d])) ∧
        ∀ q', q ≠ q' → heap σ' !! q' = heap σ !! q'.
Proof.
  intros Ht Hj Hid Hne Hl Hq Hf.
  rewrite (_route_message_registered msg σ s d rid q Q) by done.
  rewrite Hf. eexists. split; [done|].
  split; [by apply heap_after_delivery|].
  intros q' Hq'. by apply heap_after_delivery_other.
Qed.

(** X3: a stream-end frame for a registered id is queued and the id is
    unregistered at once; the manager's own [queues] keep their entry, and
    every later frame for that id is dropped with "No queue found". *)
Theorem stream_end_unregisters (msg : message) (s : string) (d : dict)
    (rid : string) (q : qref) (Q : Queue) (σ : state) :
  wire_text msg = Some s → json_loads s = Some (JObj d) →
  dict_lookup "requestId" d = Some (JStr rid) → rid ≠ "" →
  truthy (dict_get d "isStreamEnd" (JBool false)) = true →
  listeners σ !! rid = Some q → stream_queues σ !! rid = None →
  heap σ !! q = Some Q → full Q = false →
  ∃ σ', _route_message msg σ = (Ok tt, σ') ∧
        listeners σ' !! rid = None ∧
        heap σ' !! q = Some (mkQueue (maxsize Q) (items Q ++ [Some d])) ∧
        queues σ' = queues σ ∧
        ∀ msg2 s2 d2,
          wire_text msg2 = Some s2 → json_loads s2 = Some (JObj d2) →
          dict_lookup "requestId" d2 = Some (JStr rid) →
          _route_message msg2 σ' =
            (Ok tt, emit (Log Error "No queue found for request_id") σ').
Proof.
  intros Ht Hj Hid Hne Hend Hl Hs Hq Hf.
  rewrite (_route_message_registered msg σ s d rid q Q) by done.
  rewrite Hf. eexists. split; [done|].
  assert (Hgone : listeners (after_delivery rid q Q d σ) !! rid = None).
  { unfold after_delivery. rewrite Hend. cbn. apply lookup_delete_eq. }
  split; [done|]. split; [by apply heap_after_delivery|].
  split; [unfold after_delivery; by rewrite Hend|].
  intros msg2 s2 d2 Ht2 Hj2 Hid2.
  apply _route_message_unroutable.
  eapply unknown_id; try done.
  unfold after_delivery. by rewrite Hend.
Qed.

End RouterMore.

Lemma delivery_reaches_only_its_channel_witness :
  ∃ σ', _route_message (H := table_codec) (Text (render (stream_chunk "r2" "Hel")))
          (create_stream "r2" serving).2 = (Ok tt, σ') ∧
        heap σ' !! 0%nat =
          Some (mkQueue 0 [Some [("requestId", JStr "r2"); ("chunk", JStr "Hel")]]) ∧
        ∀ q', 0%nat ≠ q' → heap σ' !! q' = heap (create_stream "r2" serving).2 !! q'.
Proof.
  eapply (delivery_reaches_only_its_channel (H := table_codec)
           (Text (render (stream_chunk "r2" "Hel"))) _
           [("requestId", JStr "r2"); ("chunk", JStr "Hel")] "r2" 0%nat
           (mkQueue 0 [])); try reflexivity.
  discriminate.
Defined.

Lemma stream_end_unregisters_witness :
  ∃ σ', _route_message (H := table_codec) (Text (render (stream_end "r2")))
          (create_stream "r2" serving).2 = (Ok tt, σ') ∧
        listeners σ' !! "r2" = None ∧
        heap σ' !! 0%nat =
          Some (mkQueue 0 [Some [("requestId", JStr "r2"); ("isStreamEnd", JBool true)]]) ∧
        queues σ' = queues (create_stream "r2" serving).2 ∧
        ∀ msg2 s2 d2,
          wire_text (H := table_codec) msg2 = Some s2 →
          json_loads (Codec := table_codec) s2 = Some (JObj d2) →
          dict_lookup "requestId" d2 = Some (JStr "r2") →
          _route_message (H := table_codec) msg2 σ' =
            (Ok tt, emit (Log Error "No queue found for request_id") σ').
Proof.
  eapply (stream_end_unregisters (H := table_codec)
           (Text (render (stream_end "r2"))) _
           [("requestId", JStr "r2"); ("isStreamEnd", JBool true)] "r2" 0%nat
           (mkQueue 0 [])); try reflexivity.
  discriminate.
Defined.

(** ** Sending *)

Section Sending.
Context `{Codec}.

Lemma needs_connect σ :
  connection σ = None ∨ running σ = false →
  bool_decide (connection σ = None) || negb (running σ) = true.
Proof.
  intros [Hc|Hr].
  - by rewrite bool_decide_eq_true_2.
  - rewrite Hr. apply orb_true_r.
Qed.

(** X4: with no usable connection and a failing handshake, [send] returns
    False without raising: nothing is written, the registry and the queues
    are untouched, and socket, running flag and retry counter stay as they
    were. *)
Theorem send_fails_when_unreachable (msg rid : string) (io : send_io) (σ : state) :
  connection σ = None ∨ running σ = false →
  connect_ok io = false →
  ∃ σ', send msg rid io σ = (Ok false, σ') ∧
        same_store σ σ' ∧
        connection σ' = connection σ ∧ running σ' = running σ ∧
        current_retry σ' = current_retry σ ∧
        trace σ' = trace σ ++
          [Log Info "Attempting to connect to WebSocket server";
           Connect false;
           Log Error "Failed to connect to WebSocket server";
           Log Error "Failed to send message - WebSocket connection not available"].
Proof.
  intros Hdown Hfail. unfold send, try_except. mrun.
  rewrite (needs_connect σ Hdown), Hfail. unfold connect. mrun.
  eexists. split; [done|]. split; [done|]. cbn. by rewrite <- !app_assoc.
Qed.

(** X5: when the write on a live connection fails, [send] returns False and
    closes: the socket is dropped and the running flag is cleared, so the
    receive loop stops at its next test, whatever the network does; the
    registry and the queues are untouched. *)
Theorem send_write_failure_stops_listener (msg rid : string) (io : send_io)
    (σ : state) :
  connection σ ≠ None → running σ = true → write_ok io = false →
  ∃ σ', send msg rid io σ = (Ok false, σ') ∧
        connection σ' = None ∧ running σ' = false ∧
        same_store σ σ' ∧
        trace σ' = trace σ ++
          [Log Error "Failed to send message"] ++
          (if close_ok io then [Closed; Log Info "WebSocket connection closed successfully"]
           else [Log Error "Error during connection close"]) ∧
        ∀ script, ∃ σ'', _listen script σ' = (Ok Stopped, σ'').
Proof.
  intros Hc Hr Hw. unfold send, try_except. mrun.
  rewrite Hr, bool_decide_eq_false_2 by done. mrun. rewrite Hw. mrun.
  unfold close. mrun. cbn [connection emit].
  destruct (connection σ) as [sock|] eqn:Hconn; [|done].
  destruct (close_ok io); mrun;
    (eexists; split; [done|]; split; [done|]; split; [done|]; split; [done|];
     split; [cbn; by rewrite <- ?app_assoc|];
     intros script; rewrite _listen_not_running by done; rewrite leave_eq;
     by eexists).
Qed.

(** X6: with no usable connection, a successful handshake and a successful
    write, [send] returns True: the frame goes out after the handshake, the
    retry counter is reset and a socket is set; the running flag is not
    touched, so while the listener is not running every [send] handshakes
    again. *)
Theorem send_connects_first (msg rid : string) (io : send_io) (σ : state) :
  connection σ = None ∨ running σ = false →
  connect_ok io = true → write_ok io = true → replies io = [] →
  ∃ σ', send msg rid io σ = (Ok true, σ') ∧
        connection σ' = Some Socket ∧ running σ' = running σ ∧
        current_retry σ' = 0 ∧ same_store σ σ' ∧
        trace σ' = trace σ ++
          [Log Info "Attempting to connect to WebSocket server";
           Connect true;
           Log Success "WebSocket connection established successfully";
           Sent msg rid;
           Log Info "Sent message"].
Proof.
  intros Hdown Hok Hw Hq. unfold send, try_except. mrun.
  rewrite (needs_connect σ Hdown), Hok. unfold connect. mrun.
  rewrite Hw, Hq. cbn [listener_routes]. mrun.
  eexists. split; [done|]. split; [done|]. split; [done|]. split; [done|].
  split; [done|]. cbn. by rewrite <- !app_assoc.
Qed.

End Sending.

Lemma send_fails_when_unreachable_witness :
  ∃ σ', send (H := table_codec) "{}" "r1" (mkSendIo false true true []) initial
        = (Ok false, σ') ∧
        same_store initial σ' ∧
        connection σ' = connection initial ∧ running σ' = running initial ∧
        current_retry σ' = current_retry initial ∧
        trace σ' = trace initial ++
          [Log Info "Attempting to connect to WebSocket server";
           Connect false;
           Log Error "Failed to connect to WebSocket server";
           Log Error "Failed to send message - WebSocket connection not available"].
Proof.
  apply (send_fails_when_unreachable (H := table_codec)); [by left|reflexivity].
Defined.

Lemma send_write_failure_stops_listener_witness :
  ∃ σ', send (H := table_codec) "{}" "r1" (mkSendIo true false true []) serving
        = (Ok false, σ') ∧ connection σ' = None ∧ running σ' = false.
Proof.
  destruct (send_write_failure_stops_listener (H := table_codec) "{}" "r1"
              (mkSendIo true false true []) serving)
    as (σ' & Hs & Hc & Hr & _); [discriminate|reflexivity|reflexivity|].
  by exists σ'.
Defined.

Lemma send_connects_first_witness :
  ∃ σ', send (H := table_codec) "{}" "r1" quiet_send initial = (Ok true, σ') ∧
        connection σ' = Some Socket ∧ running σ' = running initial ∧
        current_retry σ' = 0.
Proof.
  destruct (send_connects_first (H := table_codec) "{}" "r1" quiet_send initial)
    as (σ' & Hs & Hc & Hr & Hn & _); [by left|reflexivity..|].
  by exists σ'.
Defined.

(** ** The retry budget of the receive loop *)

Section Budget.
Context `{Codec}.

Lemma iteration_failure σ c k :
  connection σ ≠ None → running σ = true →
  iteration (mkTurn c Failure k) σ =
    let σ1 := set_current_retry (current_retry σ + 1)
                (emit (Log Error "Error processing message") σ) in
    if current_retry σ + 1 >=? max_retries then
      (Ok Break, emit (Log Error "Max retries reached - stopping listener") σ1)
    else (Ok Continue, emit (Sleep reconnect_delay) σ1).
Proof.
  intros Hc Hr. unfold iteration. mrun.
  rewrite Hr, bool_decide_eq_false_2 by done. mrun. cbn [turn_recv]. mrun.
  cbn [current_retry set_current_retry emit].
  by destruct (current_retry σ + 1 >=? max_retries).
Qed.

Lemma _listen_step σ t script :
  running σ = true →
  _listen (t :: script) σ =
    (c ← iteration t;
     match c with Continue => _listen script | Break => leave end) σ.
Proof. intros Hr. cbn [_listen]. mrun. by rewrite Hr. Qed.

(** Failures below the budget: the loop sleeps and goes on, counting. *)
Lemma _listen_failures_below n : ∀ σ c k script,
  connection σ ≠ None → running σ = true →
  current_retry σ + Z.of_nat n < max_retries →
  ∃ σ', _listen (replicate n (mkTurn c Failure k) ++ script) σ = _listen script σ' ∧
        running σ' = true ∧ connection σ' = connection σ ∧
        current_retry σ' = current_retry σ + Z.of_nat n ∧
        same_store σ σ' ∧
        trace σ' = trace σ ++
          mjoin (replicate n [Log Error "Error processing message";
                              Sleep reconnect_delay]).
Proof.
  induction n as [|n IH]; intros σ c k script Hc Hr Hlt.
  - exists σ. cbn. rewrite Z.add_0_r, app_nil_r. done.
  - cbn [replicate app]. rewrite _listen_step by done.
    unfold bind at 1. rewrite iteration_failure by done. cbv zeta.
    destruct (Z.geb_spec (current_retry σ + 1) max_retries) as [Hge|_]; [lia|].
    set (σ1 := emit (Sleep reconnect_delay) _).
    destruct (IH σ1 c k script) as (σ' & Hl & Hr' & Hc' & Hn' & Hs' & Ht');
      [done|done|cbn; lia|].
    exists σ'. split; [done|]. split; [done|]. split; [done|].
    split; [rewrite Hn'; cbn; lia|]. split; [done|].
    rewrite Ht'. cbn. by rewrite <- !app_assoc.
Qed.

(** X7: errors of the receive loop other than a closed connection are
    counted against [max_retries]: while the count stays below it the loop
    sleeps [reconnect_delay] and goes on; the failure that makes the count
    reach it ends the loop, with the running flag cleared and the socket left
    as it is. *)
Theorem listen_stops_at_max_retries (n : nat) (σ : state) (c k : bool)
    (script : list turn) :
  connection σ ≠ None → running σ = true →
  current_retry σ + Z.of_nat n + 1 = max_retries →
  ∃ σ', _listen (replicate (S n) (mkTurn c Failure k) ++ script) σ = (Ok Stopped, σ') ∧
        running σ' = false ∧ connection σ' = connection σ ∧
        current_retry σ' = max_retries ∧
        trace σ' = trace σ ++
          mjoin (replicate n [Log Error "Error processing message";
                              Sleep reconnect_delay]) ++
          [Log Error "Error processing message";
           Log Error "Max retries reached - stopping listener";
           Log Info "WebSocket message listener stopped"].
Proof.
  intros Hc Hr Hn.
  replace (replicate (S n) (mkTurn c Failure k))
    with (replicate n (mkTurn c Failure k) ++ [mkTurn c Failure k])
    by (by rewrite <- replicate_S_end).
  rewrite <- app_assoc.
  destruct (_listen_failures_below n σ c k ([mkTurn c Failure k] ++ script))
    as (σ1 & Hl & Hr1 & Hc1 & Hn1 & _ & Ht1); [done|done|lia|].
  rewrite Hl. cbn [app]. rewrite _listen_step by done.
  unfold bind at 1. rewrite iteration_failure by congruence. cbv zeta.
  destruct (Z.geb_spec (current_retry σ1 + 1) max_retries) as [_|Hlt]; [|lia].
  rewrite leave_eq. eexists. split; [done|]. split; [done|].
  split; [done|]. split; [cbn; lia|].
  cbn. rewrite Ht1. by rewrite <- !app_assoc.
Qed.

Lemma on_message_passive m σ :
  ∃ σr, on_message m σ = (Ok tt, set_current_retry 0 σr) ∧ passive σ σr.
Proof.
  unfold on_message. mrun.
  destruct (_route_message_returns m (emit (Log Info "Received message") σ)) as [σr Hr].
  pose proof (passive_route_message m (emit (Log Info "Received message") σ)) as P.
  rewrite Hr in P. cbn [snd] in P.
  unfold bind. rewrite Hr. exists σr. split; [done|].
  etrans; [|exact P]. by apply passive_emit.
Qed.

(** X8: every frame that [recv()] returns, routable or not, resets the retry
    counter to zero and leaves socket and running flag alone; the loop goes
    on with its next turn. *)
Theorem listen_message_resets_retry (σ : state) (c k : bool) (m : message)
    (script : list turn) :
  connection σ ≠ None → running σ = true →
  ∃ σ1, _listen (mkTurn c (Received m) k :: script) σ = _listen script σ1 ∧
        current_retry σ1 = 0 ∧ connection σ1 = connection σ ∧
        running σ1 = true ∧ queues σ1 = queues σ.
Proof.
  intros Hc Hr. rewrite _listen_received by done.
  destruct (on_message_passive m σ) as (σr & Hm & P).
  unfold bind. rewrite Hm. eexists. split; [done|].
  destruct P as [Pc Pr [_ [Pq _]] _ _ _ _ _].
  split; [done|]. split; [done|]. split; [cbn; congruence|done].
Qed.

End Budget.

Lemma listen_stops_at_max_retries_witness :
  ∃ σ', _listen (H := table_codec)
          (replicate 5 (mkTurn true Failure true) ++ []) serving = (Ok Stopped, σ') ∧
        running σ' = false ∧ connection σ' = connection serving ∧
        current_retry σ' = max_retries.
Proof.
  destruct (listen_stops_at_max_retries (H := table_codec) 4 serving true true [])
    as (σ' & Hl & Hr & Hc & Hn & _); [discriminate|reflexivity|reflexivity|].
  by exists σ'.
Defined.

Lemma listen_message_resets_retry_witness :
  ∃ σ1, _listen (H := table_codec)
          [mkTurn true (Received (Text "not json")) true]
          (set_current_retry 3 serving) = _listen (H := table_codec) [] σ1 ∧
        current_retry σ1 = 0.
Proof.
  destruct (listen_message_resets_retry (H := table_codec)
              (set_current_retry 3 serving) true true (Text "not json") [])
    as (σ1 & Hl & Hn & _); [discriminate|reflexivity|].
  by exists σ1.
Defined.

Section LoopReturns.
Context `{Codec}.

Lemma iteration_returns t σ : ∃ c σ', iteration t σ = (Ok c, σ').
Proof.
  unfold iteration. mrun.
  assert (Hrecv : ∀ σ0, ∃ c σ',
    match turn_recv t with
    | Received m => bind (on_message m) (λ _, ret Continue)
    | ConnectionClosedOK | ConnectionClosedError =>
        bind (log Warn "WebSocket connection closed")
          (λ _, bind (close (turn_close_ok t)) (λ _, ret Continue))
    | Cancelled => bind (log Info "Message listener cancelled") (λ _, ret Break)
    | Failure =>
        bind (log Error "Error processing message")
          (λ _, bind (modify (λ σ, set_current_retry (current_retry σ + 1) σ))
             (λ _, bind get_state
                (λ σ, if current_retry σ >=? max_retries
                      then bind (log Error "Max retries reached - stopping listener")
                             (λ _, ret Break)
                      else bind (modify (emit (Sleep reconnect_delay)))
                             (λ _, ret Continue))))
    end σ0 = (Ok c, σ')).
  { intros σ0. destruct (turn_recv t).
    - destruct (on_message_returns m σ0) as [σ1 Hm].
      unfold bind. rewrite Hm. by eexists _, _.
    - mrun.
      destruct (close_returns (turn_close_ok t)
                  (emit (Log Warn "WebSocket connection closed") σ0)) as [σ1 Hc].
      unfold bind. rewrite Hc. by eexists _, _.
    - mrun.
      destruct (close_returns (turn_close_ok t)
                  (emit (Log Warn "WebSocket connection closed") σ0)) as [σ1 Hc].
      unfold bind. rewrite Hc. by eexists _, _.
    - mrun. by eexists _, _.
    - mrun. destruct (_ >=? _); mrun; by eexists _, _. }
  destruct (bool_decide (connection σ = None) || negb (running σ)).
  - destruct (connect_returns (turn_connect_ok t) σ) as [σ1 Hc].
    unfold bind at 1. rewrite Hc. destruct (turn_connect_ok t); cbn [negb].
    + apply Hrecv.
    + mrun. by eexists _, _.
  - mrun. apply Hrecv.
Qed.

(** X9: [_listen] never raises.  When it has left its loop the running flag
    is cleared; while it is suspended waiting for the network the flag is
    set. *)
Theorem listen_returns (script : list turn) (σ : state) :
  ∃ st σ', _listen script σ = (Ok st, σ') ∧
           running σ' = match st with Awaiting => true | Stopped => false end.
Proof.
  revert σ. induction script as [|t script IH]; intros σ;
    destruct (running σ) eqn:Hr.
  - exists Awaiting, σ. cbn [_listen]. mrun. by rewrite Hr.
  - rewrite _listen_not_running, leave_eq by done. by eexists _, _.
  - rewrite _listen_step by done.
    destruct (iteration_returns t σ) as (c & σ1 & Hi).
    unfold bind. rewrite Hi. destruct c; [apply IH|].
    rewrite leave_eq. by eexists _, _.
  - rewrite _listen_not_running, leave_eq by done. by eexists _, _.
Qed.

End LoopReturns.

(** ** The managers' queues *)

Section Managers.
Context `{Codec}.

(** X10: waiting on an id the manager has no queue for raises the 404 error
    at once: no frame is awaited, and registry, queues and heap are as
    before. *)
Theorem wait_for_response_unknown_id (rid : string) (arrivals : list message)
    (σ : state) :
  queues σ !! rid = None →
  ∃ σ', wait_for_response rid arrivals σ =
          (Raise (HTTPException 404 (JStr ("Request not found: " +:+ rid))), σ') ∧
        same_store σ σ' ∧
        trace σ' = trace σ ++ [Log Error "Queue not found for request_id";
                               Log Error "Error waiting for response"].
Proof.
  intros Hq. unfold wait_for_response, try_except. mrun. rewrite Hq. mrun.
  eexists. split; [done|]. split.
  - split; [done|]. split; [done|]. split; [|done]. cbn. by apply delete_id.
  - cbn. by rewrite <- !app_assoc.
Qed.

(** X11: when the element at the head of the queue is not a success (a dict
    that is empty or whose [code] is not 200, or [None]), the wait consumes
    it and raises: the 500 error carrying the dict's [message], or "Unknown
    error" when it has none; [AttributeError] for [None]. *)
Theorem wait_for_response_upstream_error (rid : string) (q : qref) (n : Z)
    (x : item) (rest : list item) (arrivals : list message) (σ : state) :
  queues σ !! rid = Some q →
  heap σ !! q = Some (mkQueue n (x :: rest)) →
  is_success x = false →
  ∃ σ', wait_for_response rid arrivals σ =
          (Raise (match x with
                  | Some d => HTTPException 500 (dict_get d "message" (JStr "Unknown error"))
                  | None => AttributeError "get"
                  end), σ') ∧
        heap σ' !! q = Some (mkQueue n rest) ∧
        queues σ' !! rid = None ∧
        trace σ' = trace σ ++ [Log Error "Error waiting for response"].
Proof.
  intros Hqs Hq Hok. unfold wait_for_response, try_except. mrun. rewrite Hqs.
  unfold bind at 1. rewrite (await_get_head q n x rest arrivals σ Hq).
  assert (Hlt : (q < length (heap σ))%nat) by by eapply lookup_lt_Some.
  unfold try_finally. destruct x as [d|].
  - rewrite Hok. cbn. eexists. split; [done|].
    split; [by apply list_lookup_insert_eq|]. split; [apply lookup_delete_eq|done].
  - cbn. eexists. split; [done|].
    split; [by apply list_lookup_insert_eq|]. split; [apply lookup_delete_eq|done].
Qed.

(** X12: on every exit of [wait_for_response] (a response, an upstream
    error, a timeout, an unknown id) the manager's map is the old one without
    the id; the cleanups added and the authenticated addresses are as
    before. *)
Theorem wait_for_response_forgets (rid : string) (arrivals : list message)
    (σ : state) :
  queues (wait_for_response rid arrivals σ).2 = delete rid (queues σ) ∧
  scheduled (wait_for_response rid arrivals σ).2 = scheduled σ ∧
  authenticated_addresses (wait_for_response rid arrivals σ).2 =
    authenticated_addresses σ.
Proof.
  assert (Hw : ∃ r σ', wait_for_response rid arrivals σ = (r, σ') ∧
                       queues σ' = delete rid (queues σ) ∧
                       scheduled σ' = scheduled σ ∧
                       authenticated_addresses σ' = authenticated_addresses σ).
  { unfold wait_for_response, try_except. mrun.
    destruct (queues σ !! rid) as [q|] eqn:Hqs.
    - destruct (await_get_returns q arrivals σ) as (r & σ1 & Ha).
      pose proof (keeps_await_get untouched q arrivals σ) as K.
      rewrite Ha in K. cbn [snd] in K. destruct K as (Ka & Kq & Ks).
      unfold bind at 1. rewrite Ha. unfold try_finally.
      destruct r as [[d|]|]; [destruct (is_success (Some d))|..]; cbn;
        eexists _, _; (split; [done|]); cbn;
        rewrite ?delete_delete_eq, Kq, Ks, Ka; done.
    - mrun. eexists _, _. split; [done|]. done. }
  destruct Hw as (r & σ' & -> & Hq & Hs & Ha). done.
Qed.

End Managers.

Lemma wait_for_response_unknown_id_witness :
  ∃ σ', wait_for_response (H := table_codec) "r1" [] serving =
          (Raise (HTTPException 404 (JStr ("Request not found: " +:+ "r1"))), σ') ∧
        same_store serving σ' ∧
        trace σ' = trace serving ++ [Log Error "Queue not found for request_id";
                                     Log Error "Error waiting for response"].
Proof.
  apply (wait_for_response_unknown_id (H := table_codec)). reflexivity.
Defined.

Lemma wait_for_response_upstream_error_witness :
  ∃ σ', wait_for_response (H := table_codec) "r2" []
          (listener_routes (H := table_codec)
             [Text (render (unary_failure "r2" 500 "boom"))]
             (create_request "r2" serving).2).2 =
          (Raise (HTTPException 500 (JStr "boom")), σ').
Proof.
  destruct (wait_for_response_upstream_error (H := table_codec) "r2" 0%nat 0
              (Some [("requestId", JStr "r2"); ("code", JNum 500);
                     ("message", JStr "boom")]) [] []
              (listener_routes (H := table_codec)
                 [Text (render (unary_failure "r2" 500 "boom"))]
                 (create_request "r2" serving).2).2)
    as (σ' & Hw & _); [reflexivity..|].
  by exists σ'.
Defined.

Global Instance same_scheduled_preorder : PreOrder same_scheduled.
Proof. split; unfold same_scheduled; [done|congruence]. Qed.

Global Instance same_scheduled_connection : ConnectionFrame same_scheduled.
Proof. split; try done. apply _. Qed.

Global Instance same_scheduled_frame : NetworkFrame same_scheduled.
Proof. split; try done. apply _. Qed.

Section Queues.
Context `{Codec}.

(** X13: [create_queue] makes the manager and the registry hold one and the
    same queue for the id and leaves every other id alone; an id that is
    already registered keeps its queue, and no new queue is made. *)
Theorem create_queue_shares_queue (rid : string) (σ : state) :
  ∃ q σ', create_queue rid σ = (Ok q, σ') ∧
          listeners σ' !! rid = Some q ∧ queues σ' !! rid = Some q ∧
          (∀ rid', rid' ≠ rid →
             listeners σ' !! rid' = listeners σ !! rid' ∧
             queues σ' !! rid' = queues σ !! rid') ∧
          (∀ q0, listeners σ !! rid = Some q0 → q = q0 ∧ heap σ' = heap σ).
Proof.
  unfold create_queue. mrun. unfold bind at 1.
  destruct (listeners σ !! rid) as [q0|] eqn:Hl.
  - rewrite (register_listener_existing rid q0) by done. mrun.
    eexists _, _. split; [done|]. cbn.
    split; [done|]. split; [apply lookup_insert_eq|].
    split; [|by intros ? [= ->]].
    intros rid' Hne. split; [done|]. by apply lookup_insert_ne.
  - rewrite register_listener_new by done. mrun.
    eexists _, _. split; [done|]. cbn.
    split; [apply lookup_insert_eq|]. split; [apply lookup_insert_eq|].
    split; [|done].
    intros rid' Hne. split; by apply lookup_insert_ne.
Qed.

Lemma cleanup_queue_eq rid σ :
  ∃ σ', cleanup_queue rid σ = (Ok tt, σ') ∧
        listeners σ' = delete rid (listeners σ) ∧
        queues σ' = delete rid (queues σ) ∧
        heap σ' = heap σ ∧ scheduled σ' = scheduled σ.
Proof.
  unfold cleanup_queue. mrun. unfold bind at 1.
  destruct (listeners σ !! rid) as [q|] eqn:Hl.
  - erewrite unregister_listener_present by (cbn; exact Hl). mrun.
    eexists. split; [done|]. done.
  - rewrite unregister_listener_absent by (cbn; exact Hl). mrun.
    eexists. split; [done|]. cbn. split; [|done]. symmetry. by apply delete_id.
Qed.

(** X14: on a fresh id, [cleanup_queue] after [create_queue] gives back the
    registry and the manager's map exactly as they were; the queue object
    made in between stays in the heap, referenced by nobody. *)
Theorem cleanup_undoes_create (rid : string) (σ : state) :
  listeners σ !! rid = None → queues σ !! rid = None →
  ∃ σ', (create_queue rid;; cleanup_queue rid) σ = (Ok tt, σ') ∧
        listeners σ' = listeners σ ∧ queues σ' = queues σ ∧
        heap σ' = heap σ ++ [mkQueue 0 []].
Proof.
  intros Hl Hq. unfold create_queue. mrun. rewrite ?bind_assoc. unfold bind at 1.
  rewrite register_listener_new by done. mrun.
  match goal with |- context [cleanup_queue rid ?st] =>
    destruct (cleanup_queue_eq rid st) as (σ' & Hc & Hl' & Hq' & Hh' & _) end.
  rewrite Hc. exists σ'. split; [done|]. rewrite Hl', Hq', Hh'. cbn.
  rewrite !delete_insert_eq. split; [by apply delete_id|].
  split; [by apply delete_id|done].
Qed.

(** X15: the background cleanup never raises and removes the id from the
    registry and from the manager's map, nothing else; run again, it changes
    neither map. *)
Theorem background_cleanup_removes_both (rid : string) (σ : state) :
  ∃ σ', background_cleanup rid σ = (Ok tt, σ') ∧
        listeners σ' = delete rid (listeners σ) ∧
        queues σ' = delete rid (queues σ) ∧
        heap σ' = heap σ ∧
        ∃ σ'', background_cleanup rid σ' = (Ok tt, σ'') ∧
               listeners σ'' = listeners σ' ∧ queues σ'' = queues σ'.
Proof.
  unfold background_cleanup, try_except.
  destruct (cleanup_queue_eq rid σ) as (σ' & Hc & Hl & Hq & Hh & _).
  rewrite Hc. exists σ'. split; [done|]. split; [done|]. split; [done|].
  split; [done|].
  destruct (cleanup_queue_eq rid σ') as (σ'' & Hc' & Hl' & Hq' & _).
  rewrite Hc'. exists σ''. split; [done|].
  rewrite Hl', Hq', Hl, Hq. by rewrite !delete_delete_eq.
Qed.

End Queues.

Lemma cleanup_undoes_create_witness :
  ∃ σ', (create_queue "r1";; cleanup_queue "r1") serving = (Ok tt, σ') ∧
        listeners σ' = listeners serving ∧ queues σ' = queues serving ∧
        heap σ' = heap serving ++ [mkQueue 0 []].
Proof. apply cleanup_undoes_create; reflexivity. Defined.

(** ** Request and stream entry points *)

Section EntryPoints.
Context `{Codec}.

Lemma same_scheduled_set_queues q σ : same_scheduled σ (set_queues q σ).
Proof. done. Qed.

Lemma create_queue_same_scheduled rid : keeps same_scheduled (create_queue rid).
Proof.
  unfold create_queue.
  repeat first [ apply keeps_register_listener; apply _
               | apply keeps_modify; intros ?; apply same_scheduled_set_queues
               | keeps_step ].
Qed.

Lemma wait_for_response_same_scheduled rid arrivals :
  keeps same_scheduled (wait_for_response rid arrivals).
Proof.
  unfold wait_for_response.
  repeat first [ apply keeps_await_get; apply _
               | apply keeps_modify; intros ?; apply same_scheduled_set_queues
               | keeps_step ].
Qed.

(** X16: [process_request] either returns a completion or raises
    [NameError]: a timeout, an upstream error or a request without a model
    never reaches the caller as such, because the handler that would add the
    cleanup evaluates the unbound name [background_tasks].  No cleanup is
    ever added. *)
Theorem process_request_failures_are_name_errors (rid : string) (request : json)
    (io : unary_io) (σ : state) :
  ∃ r σ', process_request rid request io σ = (r, σ') ∧
          ((∃ c, r = Ok c) ∨ r = Raise (NameError "background_tasks")) ∧
          scheduled σ' = scheduled σ.
Proof.
  unfold process_request. mrun. unfold create_request.
  match goal with |- context [try_except ?body ?h ?st] =>
    assert (K : keeps same_scheduled body);
    [|pose proof (K st) as Ks; unfold try_except at 1;
      destruct (body st) as [[c|e] σ1]]
  end.
  { repeat first [ apply create_queue_same_scheduled
                 | apply wait_for_response_same_scheduled
                 | apply keeps_send; apply _
                 | keeps_step ]. }
  - eexists _, _. split; [done|]. split; [by left; eexists|]. exact Ks.
  - mrun. eexists _, _. split; [reflexivity|]. split; [by right|]. exact Ks.
Qed.

Lemma process_stream_same_scheduled rid request io :
  keeps same_scheduled (process_stream rid request io).
Proof.
  unfold process_stream, create_stream, stream_response.
  repeat first [ apply create_queue_same_scheduled
               | apply keeps_send; apply _
               | keeps_step ].
Qed.

(** X17: [handle_stream] adds the cleanup of its request exactly once, whether
    [process_stream] returned a generator or raised, and passes that outcome
    on unchanged. *)
Theorem handle_stream_schedules_cleanup_once (rid : string) (request : json)
    (io : send_io) (σ : state) :
  ∃ r σ1, process_stream rid request io σ = (r, σ1) ∧
          handle_stream rid request io σ =
            (r, set_scheduled (scheduled σ ++ [rid]) σ1).
Proof.
  unfold handle_stream, try_finally.
  pose proof (process_stream_same_scheduled rid request io σ) as K.
  destruct (process_stream rid request io σ) as [r σ1]. cbn [snd] in K.
  exists r, σ1. split; [done|].
  change (name handle_stream_locals stream_manager_globals "background_tasks")
    with (ret (A := unit) tt).
  mrun. unfold cleanup_stream, modify. unfold same_scheduled in K. by rewrite K.
Qed.

Lemma create_queue_returns rid σ :
  ∃ q σ', create_queue rid σ = (Ok q, σ') ∧ queues σ' !! rid = Some q.
Proof.
  unfold create_queue. mrun. unfold bind at 1.
  destruct (register_listener_returns rid σ) as (q & σ1 & Hr & _).
  match goal with |- context [register_listener rid ?st] =>
    destruct (register_listener_returns rid st) as (q' & σ1' & Hr' & _) end.
  rewrite Hr'. mrun. eexists _, _. split; [done|]. cbn. apply lookup_insert_eq.
Qed.

Lemma create_stream_shares rid σ :
  ∃ q σ', create_stream rid σ = (Ok q, σ') ∧ queues σ' !! rid = Some q.
Proof.
  destruct (create_queue_returns rid σ) as (q & σ' & Hc & Hq).
  exists q, σ'. split; [|done]. unfold create_stream, try_except. by rewrite Hc.
Qed.

(** X18: for a request that is a JSON object [process_stream] never raises:
    it returns the generator for the id, not yet started, with the request's
    top-level [model], or "unknown" when there is none (the model of the
    frame built by [main.py] is under [args]); on return the manager has a
    queue for the id. *)
Theorem process_stream_returns_generator (rid : string) (d : dict)
    (io : send_io) (σ : state) :
  ∃ q σ', process_stream rid (JObj d) io σ =
            (Ok (Created rid (dict_get d "model" (JStr "unknown"))), σ') ∧
          queues σ' !! rid = Some q.
Proof.
  unfold process_stream, try_except. mrun.
  destruct (create_stream_shares rid (emit (Log Info "Processing stream request") σ))
    as (q & σ1 & Hc & Hq).
  unfold bind at 1. rewrite Hc.
  destruct (send_returns (json_dumps (JObj d)) rid io σ1) as (b & σ2 & Hs).
  pose proof (keeps_send untouched (json_dumps (JObj d)) rid io σ1) as K.
  rewrite Hs in K. cbn [snd] in K. destruct K as (_ & Kq & _).
  unfold bind at 1. rewrite Hs. cbn [py_get]. mrun. unfold stream_response. mrun.
  exists q. eexists. split; [done|]. cbn. by rewrite Kq.
Qed.


(** X20: a generator started when the manager has no queue for its id (the
    cleanup ran first, or the id was never created) raises the 404 error on
    its first pull and is finished. *)
Theorem stream_without_queue_raises (rid : string) (model : json) (io : pull_io)
    (σ : state) :
  queues σ !! rid = None →
  ∃ σ', generate_stream (Created rid model) io σ =
          (Raised (HTTPException 404 (JStr ("Stream not found: " +:+ rid))),
           Finished, σ') ∧
        trace σ' = trace σ ++ [Log Info "Generating stream for request";
                               Log Error "Queue not found for request_id";
                               Log Error "Stream generation error"] ∧
        same_store σ σ'.
Proof.
  intros Hq. unfold generate_stream. cbv zeta beta iota. unfold try_except. mrun.
  cbn [queues emit]. rewrite Hq. mrun.
  eexists. split; [done|]. split; [|done]. cbn. by rewrite <- !app_assoc.
Qed.

Lemma stream_after_cleanup_raises rid model io σ :
  ∃ σ', generate_stream (Created rid model) io (background_cleanup rid σ).2 =
          (Raised (HTTPException 404 (JStr ("Stream not found: " +:+ rid))),
           Finished, σ').
Proof.
  unfold background_cleanup, try_except.
  destruct (cleanup_queue_eq rid σ) as (σ1 & Hc & _ & Hq & _). rewrite Hc. cbn [snd].
  unfold generate_stream. cbv zeta beta iota. unfold try_except. mrun.
  cbn [queues emit]. rewrite Hq, lookup_delete_eq. mrun. by eexists.
Qed.

(** X21: an element [None] in the queue (what [stop()] puts there) makes the
    generator raise the 500 error wrapping [TypeError]; it yields no terminal
    marker and is finished. *)
Theorem stream_none_element_raises (rid : string) (model : json) (q : qref)
    (n : Z) (rest : list item) (io : pull_io) (σ : state) :
  heap σ !! q = Some (mkQueue n (None :: rest)) →
  ∃ σ', generate_stream (Looping rid model q) io σ =
          (Raised (HTTPExceptionStr 500 TypeError), Finished, σ') ∧
        heap σ' !! q = Some (mkQueue n rest) ∧
        trace σ' = trace σ ++ [Log Error "Error in stream generation";
                               Log Error "Stream generation error"].
Proof.
  intros Hq. unfold generate_stream. cbv zeta beta iota.
  unfold try_except, loop_turn, try_except.
  unfold bind at 1. rewrite (await_get_head q n None rest _ σ Hq). mrun.
  eexists. split; [done|]. split.
  - cbn. apply list_lookup_insert_eq. by eapply lookup_lt_Some.
  - cbn. by rewrite <- !app_assoc.
Qed.

End EntryPoints.


Lemma stream_without_queue_raises_witness :
  ∃ σ', generate_stream (H := table_codec) (Created "r2" (JStr "unknown"))
          (mkPullIo [] 1) serving =
          (Raised (HTTPException 404 (JStr ("Stream not found: " +:+ "r2"))),
           Finished, σ') ∧
        trace σ' = trace serving ++ [Log Info "Generating stream for request";
                                     Log Error "Queue not found for request_id";
                                     Log Error "Stream generation error"] ∧
        same_store serving σ'.
Proof. apply (stream_without_queue_raises (H := table_codec)). reflexivity. Defined.

Lemma stream_none_element_raises_witness :
  ∃ σ', generate_stream (H := table_codec) (Looping "r2" (JStr "unknown") 0%nat)
          (mkPullIo [] 1) (set_heap [mkQueue 0 [None]] serving) =
          (Raised (HTTPExceptionStr 500 TypeError), Finished, σ') ∧
        heap σ' !! 0%nat = Some (mkQueue 0 []) ∧
        trace σ' = trace (set_heap [mkQueue 0 [None]] serving) ++
                     [Log Error "Error in stream generation";
                      Log Error "Stream generation error"].
Proof.
  apply (stream_none_element_raises (H := table_codec) "r2" (JStr "unknown")
           0%nat 0 []).
  reflexivity.
Defined.

Section AuthenticationMore.
Context `{Codec}.

Lemma await_get_delivered rid q msg s (d : dict) rest σ :
  listeners σ !! rid = Some q → heap σ !! q = Some (mkQueue 0 []) →
  wire_text msg = Some s → json_loads s = Some (JObj d) →
  dict_lookup "requestId" d = Some (JStr rid) → rid ≠ "" →
  ∃ σ', await_get q (msg :: rest) σ = (Ok (Some (Some d)), σ') ∧
        untouched σ σ' ∧
        (truthy (dict_get d "isStreamEnd" (JBool false)) = false →
         listeners σ' = listeners σ).
Proof.
  intros Hl Hq Ht Hj Hid Hne.
  pose proof (keeps_await_get untouched q (msg :: rest) σ) as K.
  rewrite (await_get_arrival _ _ _ _ _ Hq) in *.
  unfold on_message in *. revert K. mrun. unfold bind at 1 3.
  rewrite (_route_message_registered msg _ s d rid q (mkQueue 0 [])) by done.
  cbn [full maxsize Z.leb Z.compare]. mrun.
  rewrite (await_get_head q 0 (Some d) [] rest); last first.
  { cbn [heap set_current_retry].
    exact (heap_after_delivery rid q (mkQueue 0 []) d
             (emit (Log Info "Received message") σ) Hq). }
  intros K. eexists. split; [done|]. split; [exact K|].
  intros He. cbn. by rewrite listeners_after_delivery.
Qed.

(** X22: a wallet authentication whose frame goes out with nothing coming in
    meanwhile, and whose first arriving frame is a success for its request
    id, returns True, appends the address to the authenticated list and
    leaves no listener for the id behind. *)
Theorem authenticate_wallet_succeeds (wallet_address : string) (io : auth_io)
    (msg : message) (s : string) (d : dict) (rest : list message) (σ : state) :
  listeners σ !! auth_uuid io = None → auth_uuid io ≠ "" →
  replies (auth_send io) = [] → auth_arrivals io = msg :: rest →
  wire_text msg = Some s → json_loads s = Some (JObj d) →
  dict_lookup "requestId" d = Some (JStr (auth_uuid io)) →
  is_success (Some d) = true →
  ∃ σ', authenticate_wallet wallet_address io σ = (Ok true, σ') ∧
        authenticated_addresses σ' = authenticated_addresses σ ++ [wallet_address] ∧
        listeners σ' !! auth_uuid io = None.
Proof.
  intros Hfresh Hne Hquiet Harr Ht Hj Hid Hok.
  unfold authenticate_wallet, try_except. cbv zeta. mrun.
  set (σ0 := emit (Log Info "Authenticating wallet") σ).
  set (frame := json_dumps (auth_request wallet_address (auth_uuid io))).
  destruct (send_returns frame (auth_uuid io) (auth_send io) σ0) as (b & σ1 & Hs).
  pose proof (keeps_send_quiet same_store frame (auth_uuid io) (auth_send io)
                Hquiet σ0) as (El & _ & _ & Eh).
  pose proof (keeps_send untouched frame (auth_uuid io) (auth_send io) σ0)
    as (Ea & _ & _).
  rewrite Hs in El, Eh, Ea. cbn [snd] in El, Eh, Ea.
  unfold bind at 1. rewrite Hs.
  assert (Hl1 : listeners σ1 !! auth_uuid io = None) by (by rewrite El).
  unfold bind at 1. rewrite (register_listener_new _ _ Hl1).
  set (q := length (heap σ1)).
  set (σ2 := emit (Log Info "Registered new listener for request_id") _).
  destruct (await_get_delivered (auth_uuid io) q msg s d rest σ2)
    as (σ3 & Ha & (Ea3 & _ & _) & _); try done.
  { cbn. apply lookup_insert_eq. }
  { cbn. subst q. rewrite lookup_app_r by done. by rewrite Nat.sub_diag. }
  unfold try_finally, bind. rewrite Harr, Ha, Hok. cbn [log modify ret].
  match goal with |- context [unregister_listener ?r ?st] =>
    destruct (unregister_listener_gone r st) as (σ4 & Hu & Hgone & (E4 & _ & _)) end.
  rewrite Hu. exists σ4. split; [done|]. split; [|done].
  rewrite E4. cbn. rewrite Ea3. subst σ2. cbn. by rewrite Ea.
Qed.

End AuthenticationMore.

Lemma authenticate_wallet_succeeds_witness :
  ∃ σ', authenticate_wallet (H := table_codec) "0xabc"
          (mkAuthIo "u1" quiet_send [Text (render (unary_success "u1" "ok" 0))])
          serving = (Ok true, σ') ∧
        authenticated_addresses σ' = authenticated_addresses serving ++ ["0xabc"] ∧
        listeners σ' !! "u1" = None.
Proof.
  eapply (authenticate_wallet_succeeds (H := table_codec) "0xabc"
            (mkAuthIo "u1" quiet_send [Text (render (unary_success "u1" "ok" 0))])
            _ _ [("requestId", JStr "u1"); ("code", JNum 200);
                 ("response", JStr "ok"); ("tokens_burned", JNum 0)]);
    try reflexivity.
  discriminate.
Defined.

(** ** The logger *)

Section Logger.

Lemma code_step_range h ch : - 2 ^ 31 ≤ code_step h ch < 2 ^ 31.
Proof.
  unfold code_step. cbv zeta.
  pose proof (Z.mod_pos_bound (Z.shiftl h 3 - h + ch + 13 + 2 ^ 31) (2 ^ 32)). lia.
Qed.

Lemma code_hash_range name : - 2 ^ 31 ≤ code_hash name < 2 ^ 31.
Proof.
  unfold code_hash.
  assert (Hgen : ∀ h, - 2 ^ 31 ≤ h < 2 ^ 31 →
                      - 2 ^ 31 ≤ fold_left code_step name h < 2 ^ 31).
  { induction name as [|ch name IH]; intros h Hh; [done|].
    cbn [fold_left]. apply IH, code_step_range. }
  apply Hgen. lia.
Qed.

(** X23: [Logger.code] never indexes outside its palette, whatever the name:
    the hash stays a signed 32-bit integer after every character, and the
    result is an entry of [c256] (between 20 and 221) for a target with
    [colors >= 2] and an entry of [c16] (between 1 and 6) otherwise. *)
Theorem code_in_palette (name : list Z) (colors : Z) :
  - 2 ^ 31 ≤ code_hash name < 2 ^ 31 ∧
  ∃ c, code name colors = Some c ∧
       if colors >=? 2 then c ∈ c256 ∧ 20 ≤ c ≤ 221
       else c ∈ c16 ∧ 1 ≤ c ≤ 6.
Proof.
  split; [apply code_hash_range|].
  unfold code. cbv zeta. set (h := code_hash name).
  destruct (colors >=? 2).
  - assert (Hi : (Z.to_nat (Z.abs h mod Z.of_nat (length c256)) < length c256)%nat).
    { assert (Hlen : length c256 = 75%nat) by reflexivity. rewrite Hlen.
      pose proof (Z.mod_pos_bound (Z.abs h) (Z.of_nat 75)). lia. }
    destruct (lookup_lt_is_Some_2 _ _ Hi) as [c Hc]. exists c. split; [done|].
    assert (Hin : c ∈ c256) by by eapply list_elem_of_lookup_2.
    split; [done|].
    assert (Hall : Forall (λ c, 20 ≤ c ≤ 221) c256)
      by (unfold c256; repeat constructor; lia).
    by apply (proj1 (Forall_forall _ _) Hall).
  - assert (Hi : (Z.to_nat (Z.abs h mod Z.of_nat (length c16)) < length c16)%nat).
    { assert (Hlen : length c16 = 6%nat) by reflexivity. rewrite Hlen.
      pose proof (Z.mod_pos_bound (Z.abs h) (Z.of_nat 6)). lia. }
    destruct (lookup_lt_is_Some_2 _ _ Hi) as [c Hc]. exists c. split; [done|].
    assert (Hin : c ∈ c16) by by eapply list_elem_of_lookup_2.
    split; [done|].
    assert (Hall : Forall (λ c, 1 ≤ c ≤ 6) c16)
      by (unfold c16; repeat constructor; lia).
    by apply (proj1 (Forall_forall _ _) Hall).
Qed.

End Logger.

Section LoggerLevels.

Lemma split_on_nonempty sep s : split_on sep s ≠ [].
Proof.
  destruct s as [|c s]; cbn; [done|].
  destruct (Ascii.eqb c sep); [done|]. by destruct (split_on sep s).
Qed.

Lemma walk_levels_number paths n : walk_levels paths (JNum n) = JNum n.
Proof. by destruct paths. Qed.

Lemma walk_levels_default paths :
  paths ≠ [] → walk_levels paths (JObj Logger_levels) = JNum 2.
Proof.
  destruct paths as [|key paths]; [done|]. intros _. cbn.
  destruct (String.eqb key "base"); [apply walk_levels_number|done].
Qed.

(** X24: for a target without a "levels" entry every logger, whatever its
    name, has level 2: success, error, info and warn records reach the
    target, debug records do not.  A numeric "levels" entry is the level of
    every logger. *)
Theorem default_level_reaches_all_but_debug (name : string) :
  get_level name None = 2 ∧
  (∀ lvl, reaches name None (level_number lvl) = true) ∧
  reaches name None DEBUG = false ∧
  (∀ n, get_level name (Some (JNum n)) = n).
Proof.
  assert (Hd : get_level name None = 2).
  { unfold get_level.
    change (default (JObj Logger_levels) None) with (JObj Logger_levels).
    by rewrite walk_levels_default by apply split_on_nonempty. }
  split; [done|]. split; [|split].
  - intros lvl. unfold reaches. rewrite Hd. by destruct lvl.
  - unfold reaches. by rewrite Hd.
  - intros n. unfold get_level.
    change (default (JObj Logger_levels) (Some (JNum n))) with (JNum n).
    by rewrite walk_levels_number.
Qed.

End LoggerLevels.

Lemma create_queue_shares_queue_witness :
  ∃ q σ', create_queue "r1" serving = (Ok q, σ') ∧
          listeners σ' !! "r1" = Some q ∧ queues σ' !! "r1" = Some q.
Proof.
  destruct (create_queue_shares_queue "r1" serving) as (q & σ' & Hc & Hl & Hq & _).
  by exists q, σ'.
Defined.
